(** * KFT order generator: novelty weighting and weighted selection

    A shallow embedding of [order_generator.py].  Python floats are read as
    real numbers (rounding is not modelled), Python ints as [Z], a raised
    exception as [None], and the module-level [random] generator as an
    explicit stream of draws threaded through a small state-and-error monad.
    The history file is the list of records that [new_order] receives and
    returns; a date is the day number of the parsed ISO string.  The
    functions of the standard library that the program calls
    ([random.choices], [random.choice], [bisect], [itertools.accumulate])
    are written out as the library defines them. *)

From Stdlib Require Import Reals Lra Lia ZArith String List Permutation Sorted DecimalString.
From stdpp Require Import base option list strings gmap.

Local Open Scope R_scope.

(** ** Python built-ins used by the program *)

Module Py.

(** Index normalisation of [l[i]]: a negative index counts from the end and
    anything outside [-len, len) raises [IndexError]. *)
Definition norm_index (len : nat) (i : Z) : option nat :=
  if ((0 <=? i) && (i <? Z.of_nat len))%Z then Some (Z.to_nat i)
  else if ((- Z.of_nat len <=? i) && (i <? 0))%Z
       then Some (Z.to_nat (Z.of_nat len + i))
       else None.

(** [l[i]] *)
Definition getitem {A} (l : list A) (i : Z) : option A :=
  j ← norm_index (length l) i; l !! j.

(** [l[i] = x] *)
Definition setitem {A} (l : list A) (i : Z) (x : A) : option (list A) :=
  j ← norm_index (length l) i; Some (<[j:=x]> l).

(** [len(l)] *)
Definition len {A} (l : list A) : Z := Z.of_nat (length l).

(** [range(lo, hi)] *)
Definition range (lo hi : Z) : list Z :=
  map (λ i, (lo + Z.of_nat i)%Z) (seq 0 (Z.to_nat (hi - lo))).

(** [l.index(x)]: position of the first equal element, [ValueError] if
    there is none. *)
Fixpoint index (l : list string) (x : string) : option Z :=
  match l with
  | [] => None
  | y :: l' => if String.eqb y x then Some 0%Z else Z.succ <$> index l' x
  end.

(** [int(x)] on a float: truncation towards zero. *)
Definition int (x : R) : Z :=
  if Rle_dec 0 x then Int_part x else (- Int_part (- x))%Z.

(** [sum(v)]: left to right, starting from 0. *)
Definition sum (v : list R) : R := fold_left Rplus v 0.

(** [max(x, 0)] *)
Definition max0 (x : R) : R := Rmax x 0.

(** [list(set(l))] on ints.  The language fixes the elements of the result,
    not their order; the first occurrence of each element is kept here. *)
Fixpoint list_set (l : list Z) : list Z :=
  match l with
  | [] => []
  | x :: l' => x :: filter (λ y, y ≠ x) (list_set l')
  end.

(** A [for] loop whose body may raise. *)
Fixpoint foldlM {A B} (f : A → B → option A) (a : A) (l : list B) : option A :=
  match l with
  | [] => Some a
  | x :: l' => a' ← f a x; foldlM f a' l'
  end.

(** [itertools.accumulate(l)]: running sums, the first one being [l[0]]. *)
Fixpoint accumulate_from (acc : R) (l : list R) : list R :=
  match l with
  | [] => []
  | x :: l' => (acc + x) :: accumulate_from (acc + x) l'
  end.

Definition accumulate (l : list R) : list R :=
  match l with
  | [] => []
  | x :: l' => x :: accumulate_from x l'
  end.

(** [bisect.bisect_right(a, x, 0, hi)] on a non-decreasing [a]: the first
    position below [hi] whose entry exceeds [x], and [hi] if there is none. *)
Fixpoint bisect (a : list R) (x : R) (hi : nat) : nat :=
  match hi, a with
  | S hi', c :: a' => if Rlt_dec x c then 0%nat else S (bisect a' x hi')
  | _, _ => 0%nat
  end.

End Py.

(** ** The random module *)

Module Random.

(** A float in [0.0, 1.0), as [random.random()] returns it. *)
Record unit_float := mk_unit {
  uf_val : R;
  uf_range : 0 <= uf_val < 1
}.

(** What the generator yields during one call of a primitive of the
    module: the float that [random()] returns, or the words that it
    yields to the successive calls of [getrandbits] that [_randbelow]
    makes.  The words are listed as far as they matter; the calls after
    them are answered 0. *)
Record draw := mk_draw {
  as_float : unit_float;
  as_words : list nat
}.

(** The generator: the draws it will produce and how many were consumed. *)
Record rng := mk_rng {
  stream : nat → draw;
  pos : nat
}.

Definition next (g : rng) : draw := stream g (pos g).
Definition advance (g : rng) : rng := mk_rng (stream g) (S (pos g)).

(** Computations that draw random numbers and may raise. *)
Definition M (A : Type) : Type := rng → option (A * rng).

Definition ret {A} (x : A) : M A := λ g, Some (x, g).

Definition bind {A B} (m : M A) (f : A → M B) : M B :=
  λ g, match m g with
       | Some (x, g') => f x g'
       | None => None
       end.

(** An operation that raises or returns without drawing. *)
Definition lift {A} (o : option A) : M A :=
  λ g, match o with Some x => Some (x, g) | None => None end.

(** [random.random()] *)
Definition random : M R :=
  λ g, Some (uf_val (as_float (next g)), advance g).

(** [n.bit_length()] *)
Definition bit_length (n : nat) : nat :=
  match n with
  | O => O
  | S _ => S (Nat.log2 n)
  end.

(** [getrandbits(k)]: an int in [0, 2**k), the word [w] that the generator
    yields reduced to [k] bits. *)
Definition getrandbits (k w : nat) : nat := (w mod 2 ^ k)%nat.

(** The loop of [_randbelow_with_getrandbits]:
      r = getrandbits(k)
      while r >= n: r = getrandbits(k)
      return r
    over the words [ws] that the generator yields, followed by zeros: a
    run of the loop that returns has read finitely many words, and is the
    run on the list of these words. *)
Fixpoint first_below (n k : nat) (ws : list nat) : nat :=
  match ws with
  | [] => O
  | w :: ws' =>
      let r := getrandbits k w in
      if (r <? n)%nat then r else first_below n k ws'
  end.

(** [_randbelow(n)]: an int in [0, n), with [k = n.bit_length()]. *)
Definition randbelow (n : nat) : M nat :=
  λ g, Some (first_below n (bit_length n) (as_words (next g)), advance g).

(** [k] independent runs of [m], in order. *)
Fixpoint replicate {A} (k : nat) (m : M A) : M (list A) :=
  match k with
  | O => ret []
  | S k' => bind m (λ x, bind (replicate k' m) (λ xs, ret (x :: xs)))
  end.

(** [random.choice(seq)] *)
Definition choice {A} (seq : list A) : M A :=
  bind (randbelow (length seq)) (λ i, lift (seq !! i)).

(** One draw of [random.choices] without weights:
    [population[floor(random() * n)]]. *)
Definition choose_uniform {A} (population : list A) : M A :=
  bind random (λ u,
    lift (Py.getitem population (Int_part (u * INR (length population))))).

(** One draw of [random.choices] with cumulative weights:
    [population[bisect(cum_weights, random() * total, 0, n - 1)]]. *)
Definition choose_weighted {A} (population : list A) (cum_weights : list R)
    (total : R) : M A :=
  bind random (λ u,
    lift (population !! Py.bisect cum_weights (u * total) (length population - 1))).

(** [random.choices(population, weights=weights, k=k)] *)
Definition choices {A} (population : list A) (weights : option (list R))
    (k : nat) : M (list A) :=
  match weights with
  | None => replicate k (choose_uniform population)
  | Some w =>
      let cum_weights := Py.accumulate w in
      if decide (length cum_weights = length population) then
        match last cum_weights with
        | Some total =>
            if Rle_dec total 0 then lift None
            else replicate k (choose_weighted population cum_weights total)
        | None => lift None
        end
      else lift None
  end.

End Random.

#[global] Instance M_ret : MRet Random.M := @Random.ret.
#[global] Instance M_bind : MBind Random.M := λ A B f m, Random.bind m f.

(** ** The order class and its domains *)

Definition novelty_reset : R := 5.

Module Order.

Definition tea_types : list string :=
  ["classic"; "milk tea"; "punch"; "milk cap"; "yogurt"; "slush";
   "milk strike"; "espresso"]%string.

Definition ice_categories : list string :=
  ["no"; "less"; "regular"; "more"]%string.

Definition topping_list : list string :=
  ["tapioca"; "pudding"; "nata jelly"; "red bean"; "coffee popping bubbles";
   "herbal jelly"; "grape popping bubbles"; "aloe jelly";
   "mango popping bubbles"; "lychee crystal bubbles"]%string.

Record t := mk {
  toppings : list string;
  tea_type : string;
  sugar_percentage : Z;
  ice_category : string
}.

(** The keyword arguments of [__init__]: with [from_uniform=False] the
    numbers are ints, with [from_uniform=True] they are floats. *)
Inductive args :=
| FromIndex (toppings : list Z) (tea_type sugar_percentage ice_category : Z)
| FromUniform (toppings : list R) (tea_type sugar_percentage ice_category : R).

(** The dictionary that [to_dict] returns. *)
Record dict := mkdict {
  d_toppings : list Z;
  d_tea_type : Z;
  d_sugar_percentage : Z;
  d_ice_category : Z
}.

Definition init (a : args) : option t :=
  match a with
  | FromIndex tops tea sugar ice =>
      toppings ← mapM (λ t, Py.getitem topping_list (t mod Py.len topping_list)%Z) tops;
      tea_type ← Py.getitem tea_types (tea mod Py.len tea_types)%Z;
      ice_category ← Py.getitem ice_categories (ice mod Py.len ice_categories)%Z;
      Some (mk toppings tea_type (sugar mod 100)%Z ice_category)
  | FromUniform tops tea sugar ice =>
      toppings ← mapM (λ t, Py.getitem topping_list
                              (Py.int (t * IZR (Py.len topping_list)))) tops;
      tea_type ← Py.getitem tea_types (Py.int (tea * IZR (Py.len tea_types)));
      ice_category ← Py.getitem ice_categories
                       (Py.int (ice * IZR (Py.len ice_categories)));
      Some (mk toppings tea_type (Py.int (sugar * 100)) ice_category)
  end.

Definition to_dict (o : t) : option dict :=
  tops ← mapM (Py.index topping_list) (toppings o);
  tea ← Py.index tea_types (tea_type o);
  ice ← Py.index ice_categories (ice_category o);
  Some (mkdict tops tea (sugar_percentage o) ice).

(** [generate_first()]: the arguments of a first order. *)
Definition generate_first : Random.M args :=
  k ← Random.choice (Py.range 1 4);
  ts ← Random.choices (Py.range 0 (Py.len topping_list)) None (Z.to_nat k);
  tea ← Random.random;
  sugar ← Random.random;
  ice ← Random.random;
  Random.ret (FromUniform (map (λ t, IZR t / IZR (Py.len topping_list)) ts)
                          tea sugar ice).

End Order.

(** ** The novelty penalty *)

(** For [days < 0] the power of a negative number is a complex number and
    [max] raises [TypeError]. *)
Definition novelty_penalty (days : R) : option R :=
  if Rlt_dec days 0 then None
  else Some (Py.max0 (1 - sqrt (novelty_reset * days) / novelty_reset)).

(** ** The history and the novelty factors *)

(** A stored order: the [to_dict] dictionary with its ['date'] entry. *)
Record record := mkrecord {
  order : Order.dict;
  date : Z
}.

(** The dictionary [novelty_factors]: one weight per value of each domain. *)
Record factors := mkfactors {
  f_toppings : list R;
  f_tea_type : list R;
  f_ice_category : list R
}.

Definition initial_factors : factors :=
  mkfactors (map (λ _, 1) Order.topping_list)
            (map (λ _, 1) Order.tea_types)
            (map (λ _, 1) Order.ice_categories).

(** [v[i] = max(v[i] - penalty, 0)] *)
Definition penalize (penalty : R) (v : list R) (i : Z) : option (list R) :=
  w ← Py.getitem v i; Py.setitem v i (Py.max0 (w - penalty)).

(** The body of the loop over the previous orders. *)
Definition score_order (today : Z) (nf : factors) (o : record) : option factors :=
  let days_since := (today - date o)%Z in
  penalty ← novelty_penalty (IZR days_since);
  tops ← Py.foldlM (penalize penalty) (f_toppings nf) (Order.d_toppings (order o));
  tea ← penalize penalty (f_tea_type nf) (Order.d_tea_type (order o));
  ice ← penalize penalty (f_ice_category nf) (Order.d_ice_category (order o));
  Some (mkfactors tops tea ice).

Definition novelty_factors (today : Z) (previous_orders : list record) : option factors :=
  Py.foldlM (score_order today) initial_factors previous_orders.

(** ** Selection from the novelty factors *)

(** [None if sum(v) == 0 else v] *)
Definition v_or_none (v : list R) : option (list R) :=
  if Req_dec_T (Py.sum v) 0 then None else Some v.

(** [random.choices(range(len(v)), weights=v_or_none, k=k)] *)
Definition draw_values (v : list R) (k : nat) : Random.M (list Z) :=
  Random.choices (Py.range 0 (Py.len v)) (v_or_none v) k.

(** The arguments of the new order, drawn from the novelty factors. *)
Definition select_args (nf : factors) : Random.M Order.args :=
  sugar ← Random.random;
  k ← Random.choice (Py.range 1 4);
  tops ← draw_values (f_toppings nf) (Z.to_nat k);
  teas ← draw_values (f_tea_type nf) 1;
  tea ← Random.lift (Py.getitem teas 0);
  ices ← draw_values (f_ice_category nf) 1;
  ice ← Random.lift (Py.getitem ices 0);
  Random.ret (Order.FromIndex (Py.list_set tops) tea (Py.int (sugar * 100)) ice).

(** [new_order()]: the order printed and the history written back. *)
Definition new_order (today : Z) (previous_orders : list record)
    : Random.M (Order.t * list record) :=
  if decide (length previous_orders = 0%nat) then
    a ← Order.generate_first;
    this_order ← Random.lift (Order.init a);
    this_order_dict ← Random.lift (Order.to_dict this_order);
    Random.ret (this_order, [mkrecord this_order_dict today])
  else
    nf ← Random.lift (novelty_factors today previous_orders);
    a ← select_args nf;
    this_order ← Random.lift (Order.init a);
    this_order_dict ← Random.lift (Order.to_dict this_order);
    Random.ret (this_order, previous_orders ++ [mkrecord this_order_dict today]).

(** ** Notions used to state the properties *)

(** The indices that [l[i]] accepts on a list of [n] elements. *)
Definition valid_index (n : nat) (i : Z) : Prop :=
  (- Z.of_nat n <= i < Z.of_nat n)%Z.

(** A stored order the scorer can process: not dated in the future, and
    every index addresses a value of its domain. *)
Definition valid_record (today : Z) (r : record) : Prop :=
  (date r <= today)%Z ∧
  Forall (valid_index (length Order.topping_list)) (Order.d_toppings (order r)) ∧
  valid_index (length Order.tea_types) (Order.d_tea_type (order r)) ∧
  valid_index (length Order.ice_categories) (Order.d_ice_category (order r)).

(** The index lists by which a stored order refers to each domain. *)
Definition topping_refs (r : record) : list Z := Order.d_toppings (order r).
Definition tea_type_refs (r : record) : list Z := [Order.d_tea_type (order r)].
Definition ice_category_refs (r : record) : list Z := [Order.d_ice_category (order r)].

(** How many entries of [idx] address position [j] of a list of [n] elements. *)
Definition occurrences (n j : nat) (idx : list Z) : nat :=
  length (filter (λ i, Py.norm_index n i = Some j) idx).

(** The penalty of a stored order as of [today] (0 where none is defined). *)
Definition penalty_of (today : Z) (r : record) : R :=
  default 0 (novelty_penalty (IZR (today - date r))).

Definition Rsum (l : list R) : R := foldr Rplus 0 l.

(** The penalties that the loop subtracts for value [j] of a domain of [n]
    values: one per occurrence of [j] in a stored order. *)
Definition occurrence_penalties (today : Z) (refs : record → list Z)
    (n j : nat) (h : list record) : R :=
  Rsum (map (λ r, INR (occurrences n j (refs r)) * penalty_of today r) h).

(** The sum of the penalties of the stored orders that refer to value [j],
    each order counted once. *)
Definition record_penalties (today : Z) (refs : record → list Z)
    (n j : nat) (h : list record) : R :=
  Rsum (map (λ r, if decide (occurrences n j (refs r) = 0%nat) then 0
                  else penalty_of today r) h).

(** The float and the words of the [i]-th draw of a generator, and the
    generator after [k] more draws. *)
Definition float_at (g : Random.rng) (i : nat) : R :=
  Random.uf_val (Random.as_float (Random.stream g i)).
Definition words_at (g : Random.rng) (i : nat) : list nat :=
  Random.as_words (Random.stream g i).
Definition skip (k : nat) (g : Random.rng) : Random.rng :=
  Random.mk_rng (Random.stream g) (Random.pos g + k).

(** The sum of the first [i] weights. *)
Definition prefix_sum (v : list R) (i : nat) : R := Py.sum (take i v).

(** The floats for which one unweighted draw among [n] values yields value
    [i]: an interval of length [1/n]. *)
Definition uniform_share (n i : nat) (u : R) : Prop :=
  INR i <= u * INR n < INR i + 1.

(** The floats for which one draw with the weights [v] yields value [i]:
    an interval whose length is the weight of [i] over the total. *)
Definition weighted_share (v : list R) (i : nat) (u : R) : Prop :=
  prefix_sum v i <= u * Py.sum v < prefix_sum v (S i).

(** What it is for one draw with the weights [v] and the uniform float
    [u] to yield the index [z] with probability proportional to the
    weights: [z] is a value of the domain; when the weights sum to 0 it is
    the value [i] exactly for [u] in [i/n, (i+1)/n), a share of [1/n] for
    each of the [n] values; when the sum is positive, exactly for
    [u * sum] in the interval of length [w] that follows the weights
    before [i], a share of [w / sum], so that a value of weight 0 is not
    drawn. *)
Definition proportional_draw (v : list R) (u : R) (z : Z) : Prop :=
  (∃ i, (i < length v)%nat ∧ z = Z.of_nat i) ∧
  ∀ i w, v !! i = Some w →
    (Py.sum v = 0 →
       (z = Z.of_nat i ↔ INR i <= u * INR (length v) < INR i + 1)) ∧
    (0 < Py.sum v →
       (z = Z.of_nat i ↔ prefix_sum v i <= u * Py.sum v < prefix_sum v i + w) ∧
       (w = 0 → z ≠ Z.of_nat i)).

(** The value of a domain at an index that is in range. *)
Definition value_at (l : list string) (z : Z) : string :=
  default ""%string (l !! Z.to_nat z).

(** The order that [__init__] builds from indices: each one reduced modulo
    the size of its domain. *)
Definition order_at (tops : list Z) (tea sugar ice : Z) : Order.t :=
  Order.mk
    (map (λ t, value_at Order.topping_list (t mod Py.len Order.topping_list)) tops)
    (value_at Order.tea_types (tea mod Py.len Order.tea_types))
    (sugar mod 100)
    (value_at Order.ice_categories (ice mod Py.len Order.ice_categories)).

(** An index that addresses a domain of [n] values from the front. *)
Definition in_range (n : Z) (z : Z) : Prop := (0 <= z < n)%Z.

(** The order that a [to_dict] dictionary stands for. *)
Definition decode (d : Order.dict) : Order.t :=
  Order.mk (map (value_at Order.topping_list) (Order.d_toppings d))
           (value_at Order.tea_types (Order.d_tea_type d))
           (Order.d_sugar_percentage d)
           (value_at Order.ice_categories (Order.d_ice_category d)).

(** The first order as a function of the draws, [p] being the position of
    the generator: the topping count comes from the words of draw [p], of
    which [_randbelow(3)] keeps the first that is below 3 as a two-bit int,
    the toppings from the floats of the next [k] draws, then tea type,
    sugar and ice from one float each, every float [u] giving index
    [floor(u * n)] in a domain of [n] values. *)
Definition first_count (g : Random.rng) : nat :=
  S (Random.first_below 3 2 (words_at g (Random.pos g))).

Definition first_dict (g : Random.rng) : Order.dict :=
  let p := Random.pos g in
  let k := first_count g in
  Order.mkdict
    (map (λ j, Int_part (float_at g (p + 1 + j) * 10)) (seq 0 k))
    (Int_part (float_at g (p + 1 + k) * 8))
    (Int_part (float_at g (p + 2 + k) * 100))
    (Int_part (float_at g (p + 3 + k) * 4)).

(** A dictionary whose indices address their domains from the front. *)
Definition dict_in_range (d : Order.dict) : Prop :=
  Forall (in_range 10) (Order.d_toppings d) ∧
  in_range 8 (Order.d_tea_type d) ∧
  in_range 100 (Order.d_sugar_percentage d) ∧
  in_range 4 (Order.d_ice_category d).

(** Weight vectors of the sizes of the three domains, without a negative
    entry. *)
Definition factors_ok (nf : factors) : Prop :=
  (length (f_toppings nf) = 10%nat ∧ Forall (λ w, 0 <= w) (f_toppings nf)) ∧
  (length (f_tea_type nf) = 8%nat ∧ Forall (λ w, 0 <= w) (f_tea_type nf)) ∧
  (length (f_ice_category nf) = 4%nat ∧ Forall (λ w, 0 <= w) (f_ice_category nf)).

(** ** The runs of the count draw *)

(** The generator [g] with the words of its next draw replaced by [ws]. *)
Definition with_words (ws : list nat) (g : Random.rng) : Random.rng :=
  Random.mk_rng
    (λ i, if decide (i = Random.pos g)
          then Random.mk_draw (Random.as_float (Random.stream g i)) ws
          else Random.stream g i)
    (Random.pos g).

(** The lists of [m] two-bit words: [4 ^ m] lists, each as likely as the
    others when the generator is uniform. *)
Fixpoint word_lists (m : nat) : list (list nat) :=
  match m with
  | O => [[]]
  | S m' =>
      map (cons 0%nat) (word_lists m') ++ map (cons 1%nat) (word_lists m') ++
      map (cons 2%nat) (word_lists m') ++ map (cons 3%nat) (word_lists m')
  end.

(** The loop of [_randbelow(3)] returns within the words [ws]: it accepts
    one of them. *)
Definition returns_within (ws : list nat) : bool :=
  existsb (λ w, (Random.getrandbits 2 w <? 3)%nat) ws.

(** The number of toppings of the order that [new_order] generates on an
    empty history. *)
Definition first_toppings (today : Z) (g : Random.rng) : nat :=
  match new_order today [] g with
  | Some ((o, _), _) => length (Order.toppings o)
  | None => O
  end.

(** How many of the lists of [m] two-bit words, given to the count draw of
    [g], make it return and the first order have [c] toppings. *)
Definition runs_with_count (today : Z) (g : Random.rng) (m c : nat) : nat :=
  length (List.filter
    (λ ws, returns_within ws && (first_toppings today (with_words ws g) =? c)%nat)
    (word_lists m)).

(** ** Concrete inputs *)

(** A generator that repeats one draw: the float [u] and the word [b]. *)
Definition constant_rng (u : Random.unit_float) (b : nat) : Random.rng :=
  Random.mk_rng (λ _, Random.mk_draw u [b]) 0.

Definition half_range : 0 <= 1 / 2 < 1 := ltac:(lra).
Definition half : Random.unit_float := Random.mk_unit (1 / 2) half_range.

(** One order placed today: topping 0, tea type 1, ice category 0. *)
Definition scenario_history : list record :=
  [mkrecord (Order.mkdict [0%Z] 1 50 0) 0].

(** A one-day-old order that lists topping 3 twice, as the first run
    stores it when the two draws of [generate_first] coincide. *)
Definition repeated_topping_history : list record :=
  [mkrecord (Order.mkdict [3%Z; 3%Z] 0 0 0) 0].

(** ** Text: the string operations of [__str__] and of the prompts *)

Module PyStr.

Definition nl : string := String (Ascii.ascii_of_nat 10) EmptyString.
Definition dq : string := String (Ascii.ascii_of_nat 34) EmptyString.

(** [str(z)] of an int, as an f-string formats it. *)
Definition str_int (z : Z) : string := NilZero.string_of_int (Z.to_int z).

(** [s.replace(old, new)] for a non-empty [old]: the occurrences of [old]
    are replaced from the left, without overlap.  [skip] counts the
    characters of an occurrence that are still to be dropped. *)
Fixpoint replace_from (old new : string) (skip : nat) (s : string) : string :=
  match s with
  | EmptyString => EmptyString
  | String c s' =>
      match skip with
      | S k => replace_from old new k s'
      | O =>
          if String.prefix old s
          then new ++ replace_from old new (String.length old - 1) s'
          else String c (replace_from old new 0 s')
      end
  end.

Definition replace (old new s : string) : string := replace_from old new 0 s.

(** [set(s)]: the characters of a string. *)
Definition set (s : string) : gset Ascii.ascii :=
  list_to_set (String.list_ascii_of_string s).

End PyStr.

(** ** The sentence that describes an order *)

(** [lambda l, s : l[:-1] + [s] + l[-1:]] *)
Definition insert_before_end (l : list string) (s : string) : list string :=
  take (length l - 1) l ++ [s] ++ drop (length l - 1) l.

Definition topping_list_formatted (toppings : list string) : string :=
  if decide (length toppings = 1%nat) then default EmptyString (toppings !! 0%nat)
  else if decide (length toppings = 2%nat) then String.concat " and " toppings
  else PyStr.replace " and," " and"
         (String.concat ", " (insert_before_end toppings "and")).

Definition __str__ (self : Order.t) : string :=
  "A " ++ Order.tea_type self ++ " tea with "
  ++ topping_list_formatted (Order.toppings self)
  ++ " with " ++ PyStr.str_int (Order.sugar_percentage self)
  ++ " percent sugar and " ++ Order.ice_category self ++ " ice.".

(** ** The history file, the terminal and the commands *)

Definition helpmsg : string :=
  String.concat PyStr.nl
    [ EmptyString;
      "    Help for KFT Order Generator";
      "    ----------------------------";
      "    This script generates orders for Kung Fu Tea, with the intent to ";
      ("    ensure that the orders are as " ++ PyStr.dq ++ "novel" ++ PyStr.dq
         ++ " as possible. Novelty is ")%string;
      "    defined in the form of penalties, where the penalty given by having ";
      "    a certain item D days in the past for novelty renewal period N is";
      "    as follows:";
      EmptyString;
      "        max(1 - sqrt(N * D)/N, 0)";
      EmptyString;
      "    Commands:";
      EmptyString;
      "    ... help:       Show this help page";
      "    ... clear:      Clear order history";
      "    ... (no args):  Generate a new order and add to history";
      EmptyString ].

(** What a run can read and write: the history file ([None] while it does
    not exist) and the text written to the terminal. *)
Record world := mkworld {
  order_storage : option (list record);
  stdout : string
}.

(** [print(s)] *)
Definition print (s : string) (w : world) : world :=
  mkworld (order_storage w) (stdout w ++ s ++ PyStr.nl).

(** [new_order()] with its file and its output: opening a missing file
    raises, the new order is printed and the updated history written. *)
Definition new_order_file (today : Z) (w : world) : Random.M world :=
  previous_orders ← Random.lift (order_storage w);
  r ← new_order today previous_orders;
  Random.ret (mkworld (Some r.2)
                (stdout (print ("Today's order:" ++ PyStr.nl ++ __str__ r.1) w))).

(** [clear_orders()], [response] being the line typed at the prompt. *)
Definition clear_orders (response : string) (w : world) : world :=
  let w := mkworld (order_storage w)
             (stdout w ++ "Are you sure you want to clear order history? [y/N] ") in
  if bool_decide (PyStr.set response ∩ PyStr.set "yY" ≠ ∅)
  then mkworld (Some []) (stdout w)
  else print "Aborted." w.

(** The body of [if __name__ == '__main__']. *)
Definition main (argv : list string) (today : Z) (response : string)
    (w : world) : Random.M world :=
  if decide (length argv = 1%nat) then new_order_file today w
  else
    command ← Random.lift (Py.getitem argv 1);
    if String.eqb command "clear" then Random.ret (clear_orders response w)
    else if String.eqb command "help" then Random.ret (print helpmsg w)
    else Random.ret w.

(** Successive runs of [new_order], one for each of the given days. *)
Fixpoint new_orders (days : list Z) (h : list record) : Random.M (list record) :=
  match days with
  | [] => Random.ret h
  | today :: days' => r ← new_order today h; new_orders days' r.2
  end.

(** ** More concrete inputs *)

(** Three orders as of day 10: one nine days old, one from yesterday and
    one from today that addresses its values from the end. *)
Definition mixed_history : list record :=
  [mkrecord (Order.mkdict [2%Z; 7%Z] 3 10 1) 1;
   mkrecord (Order.mkdict [0%Z] 1 50 0) 9;
   mkrecord (Order.mkdict [(-1)%Z] 1 99 (-4)) 10].


(** The enumeration of a list of names in a sentence. *)
Definition listing (l : list string) : string :=
  match l with
  | [] => "and"
  | [a] => a
  | [a; b] => a ++ " and " ++ b
  | _ => String.concat ", " (removelast l) ++ ", and " ++ List.last l EmptyString
  end.

(** The characters of an answer that confirm the clearing. *)
Definition confirms (response : string) : Prop :=
  Ascii.ascii_of_nat 121 ∈ String.list_ascii_of_string response ∨
  Ascii.ascii_of_nat 89 ∈ String.list_ascii_of_string response.

Definition clear_prompt : string :=
  "Are you sure you want to clear order history? [y/N] ".


(** ** Python indexing *)

Lemma norm_index_lt (n : nat) (i : Z) (j : nat) :
  Py.norm_index n i = Some j → (j < n)%nat.
Proof.
  unfold Py.norm_index. intros H.
  repeat case_match; simplify_eq; lia.
Qed.

Lemma norm_index_valid (n : nat) (i : Z) :
  is_Some (Py.norm_index n i) ↔ valid_index n i.
Proof.
  unfold Py.norm_index, valid_index. split.
  - intros [j H]. repeat case_match; simplify_eq; lia.
  - intros H. repeat case_match; eauto; lia.
Qed.

Lemma norm_index_nonneg (n : nat) (i : Z) :
  (0 <= i < Z.of_nat n)%Z → Py.norm_index n i = Some (Z.to_nat i).
Proof.
  unfold Py.norm_index. intros H. case_match; [done|lia].
Qed.

Lemma norm_index_of_nat (n j : nat) :
  (j < n)%nat → Py.norm_index n (Z.of_nat j) = Some j.
Proof.
  intros H. rewrite norm_index_nonneg by lia. by rewrite Nat2Z.id.
Qed.

Lemma getitem_of_nat {A} (l : list A) (j : nat) :
  (j < length l)%nat → Py.getitem l (Z.of_nat j) = l !! j.
Proof.
  intros H. unfold Py.getitem. by rewrite norm_index_of_nat.
Qed.

Lemma getitem_is_Some {A} (l : list A) (i : Z) :
  is_Some (Py.getitem l i) ↔ valid_index (length l) i.
Proof.
  rewrite <- norm_index_valid. unfold Py.getitem. split.
  - intros [x H]. destruct (Py.norm_index (length l) i); [eauto|done].
  - intros [j H]. rewrite H. simpl. apply lookup_lt_is_Some.
    by eapply norm_index_lt.
Qed.

Lemma range_lookup (lo hi : Z) (j : nat) :
  (Z.of_nat j < hi - lo)%Z → Py.range lo hi !! j = Some (lo + Z.of_nat j)%Z.
Proof.
  intros H. unfold Py.range. rewrite list_lookup_fmap.
  rewrite lookup_seq_lt by lia. done.
Qed.

Lemma range_length (lo hi : Z) : length (Py.range lo hi) = Z.to_nat (hi - lo).
Proof. unfold Py.range. by rewrite length_map, length_seq. Qed.

(** ** Truncation of reals *)

Lemma Int_part_IZR (z : Z) : Int_part (IZR z) = z.
Proof. symmetry. apply Int_part_spec. lra. Qed.

Lemma Int_part_bounds (x : R) (n : Z) :
  0 <= x < IZR n → (0 <= Int_part x < n)%Z.
Proof.
  intros [H0 Hn]. destruct (base_Int_part x) as [Hle Hgt]. split.
  - apply Z.lt_succ_r. apply lt_IZR. rewrite succ_IZR. lra.
  - apply lt_IZR. lra.
Qed.

Lemma int_nonneg (x : R) : 0 <= x → Py.int x = Int_part x.
Proof. intros H. unfold Py.int. destruct (Rle_dec 0 x); [done|lra]. Qed.

Lemma int_unit (u : R) (n : Z) :
  0 <= u < 1 → (0 < n)%Z →
  Py.int (u * IZR n) = Int_part (u * IZR n) ∧ (0 <= Int_part (u * IZR n) < n)%Z.
Proof.
  intros Hu Hn. assert (0 < IZR n) by (by apply IZR_lt).
  assert (0 <= u * IZR n < IZR n) by nra.
  split; [apply int_nonneg; lra | by apply Int_part_bounds].
Qed.

Lemma int_value (x : R) (z : Z) :
  (0 <= z)%Z → IZR z <= x < IZR z + 1 → Py.int x = z.
Proof.
  intros Hz Hx. assert (0 <= IZR z) by (by apply IZR_le).
  rewrite int_nonneg by lra. symmetry. apply Int_part_spec. lra.
Qed.

(** ** Clamped subtraction *)

Lemma max0_nonneg (x : R) : 0 <= Py.max0 x.
Proof. apply Rmax_r. Qed.

Lemma max0_clamp (w a b : R) :
  0 <= b → Py.max0 (Py.max0 (w - a) - b) = Py.max0 (w - (a + b)).
Proof.
  intros Hb. unfold Py.max0, Rmax. repeat destruct (Rle_dec _ _); lra.
Qed.

Lemma max0_id (w : R) : 0 <= w → Py.max0 (w - 0) = w.
Proof. intros H. unfold Py.max0. rewrite Rmax_left; lra. Qed.

Lemma max0_le (w a : R) : w <= 1 → 0 <= a → Py.max0 (w - a) <= 1.
Proof. intros. unfold Py.max0. apply Rmax_lub; lra. Qed.

(** ** The novelty penalty *)

Lemma novelty_penalty_nonneg_days (d : R) :
  0 <= d →
  novelty_penalty d = Some (Rmax (1 - sqrt (5 * d) / 5) 0).
Proof.
  intros Hd. unfold novelty_penalty, novelty_reset, Py.max0.
  destruct (Rlt_dec d 0) as [Hlt|_]; [lra|reflexivity].
Qed.

Lemma sqrt_25 : sqrt 25 = 5.
Proof. replace 25 with (5 * 5) by lra. apply sqrt_square. lra. Qed.

Lemma novelty_penalty_Some (d p : R) :
  novelty_penalty d = Some p → 0 <= d ∧ 0 <= p <= 1.
Proof.
  unfold novelty_penalty, novelty_reset, Py.max0. intros H.
  destruct (Rlt_dec d 0) as [|Hd]; [done|]. simplify_eq.
  split; [lra|]. split; [apply Rmax_r|].
  pose proof (sqrt_pos (5 * d)). apply Rmax_lub; lra.
Qed.

Lemma novelty_penalty_days (z : Z) :
  (0 <= z)%Z → is_Some (novelty_penalty (IZR z)).
Proof.
  intros Hz. apply IZR_le in Hz.
  rewrite novelty_penalty_nonneg_days by done. eauto.
Qed.

Lemma novelty_penalty_0 : novelty_penalty 0 = Some 1.
Proof.
  rewrite novelty_penalty_nonneg_days by lra.
  rewrite Rmult_0_r, sqrt_0. f_equal. rewrite Rmax_left; lra.
Qed.

(** C2: on [d >= 0] the penalty is [max(1 - sqrt(5 d)/5, 0)]; it is 1 at 0,
    0 from 5 on, never negative, and does not increase with [d]. *)
Theorem novelty_penalty_spec (d d' : R) :
  0 <= d → d <= d' →
  ∃ p p', novelty_penalty d = Some p ∧ novelty_penalty d' = Some p' ∧
    p = Rmax (1 - sqrt (5 * d) / 5) 0 ∧
    0 <= p ∧ p' <= p ∧ (d = 0 → p = 1) ∧ (5 <= d → p = 0).
Proof.
  intros Hd Hdd'.
  exists (Rmax (1 - sqrt (5 * d) / 5) 0), (Rmax (1 - sqrt (5 * d') / 5) 0).
  rewrite !novelty_penalty_nonneg_days by lra.
  split; [done|]. split; [done|]. split; [done|].
  split; [apply Rmax_r|]. split; [|split].
  - assert (Hs : sqrt (5 * d) <= sqrt (5 * d')) by (apply sqrt_le_1_alt; lra).
    apply Rmax_lub; [|apply Rmax_r].
    etransitivity; [|apply Rmax_l]. lra.
  - intros ->. rewrite Rmult_0_r, sqrt_0. rewrite Rmax_left; lra.
  - intros H5.
    assert (Hs : sqrt 25 <= sqrt (5 * d)) by (apply sqrt_le_1_alt; lra).
    rewrite sqrt_25 in Hs. rewrite Rmax_right; lra.
Qed.

Lemma novelty_penalty_spec_witness :
  0 <= 0 ∧ 0 <= 5 ∧
  ∃ p p', novelty_penalty 0 = Some p ∧ novelty_penalty 5 = Some p' ∧
    p = Rmax (1 - sqrt (5 * 0) / 5) 0 ∧
    0 <= p ∧ p' <= p ∧ (0 = 0 → p = 1) ∧ (5 <= 0 → p = 0).
Proof.
  assert (H0 : 0 <= 0) by lra. assert (H5 : 0 <= 5) by lra.
  split; [exact H0|]. split; [exact H5|]. exact (novelty_penalty_spec 0 5 H0 H5).
Defined.

(** ** One clamped subtraction, and a run of them on one vector *)

Lemma penalize_Some (p : R) (v v' : list R) (i : Z) :
  penalize p v i = Some v' ↔
  ∃ j w, Py.norm_index (length v) i = Some j ∧ v !! j = Some w ∧
         v' = <[j:=Py.max0 (w - p)]> v.
Proof.
  unfold penalize, Py.getitem, Py.setitem. split.
  - intros H. destruct (Py.norm_index (length v) i) as [j|] eqn:Hj; [|done].
    simpl in H. destruct (v !! j) as [w|] eqn:Hw; [|done].
    simpl in H. exists j, w. by simplify_eq.
  - intros (j & w & -> & Hw & ->). simpl. by rewrite Hw.
Qed.

Lemma penalize_valid (p : R) (v : list R) (i : Z) :
  valid_index (length v) i → is_Some (penalize p v i).
Proof.
  intros [j Hj]%norm_index_valid.
  destruct (lookup_lt_is_Some_2 v j) as [w Hw]; [by eapply norm_index_lt|].
  exists (<[j:=Py.max0 (w - p)]> v). apply penalize_Some. eauto.
Qed.

Lemma occurrences_cons (n j : nat) (i : Z) (idx : list Z) :
  occurrences n j (i :: idx) =
  ((if decide (Py.norm_index n i = Some j) then 1 else 0) + occurrences n j idx)%nat.
Proof.
  unfold occurrences. rewrite filter_cons. by case_decide.
Qed.

Lemma penalize_run (p : R) (idx : list Z) (v v' : list R) :
  0 <= p →
  Py.foldlM (penalize p) v idx = Some v' →
  length v' = length v ∧
  Forall (valid_index (length v)) idx ∧
  ∀ j w, v !! j = Some w → 0 <= w →
    v' !! j = Some (Py.max0 (w - INR (occurrences (length v) j idx) * p)).
Proof.
  intros Hp. revert v. induction idx as [|i idx IH]; intros v H; simpl in H.
  - simplify_eq. split; [done|]. split; [constructor|].
    intros j w Hw H0. rewrite Hw. f_equal. simpl.
    rewrite Rmult_0_l. by rewrite max0_id.
  - destruct (penalize p v i) as [v1|] eqn:H1; [|done]. simpl in H.
    apply penalize_Some in H1 as (k & wk & Hk & Hwk & ->).
    apply IH in H as (Hlen & Hval & Hlook).
    rewrite length_insert in Hlen, Hval, Hlook.
    split; [done|]. split.
    { constructor; [|done]. apply norm_index_valid. eauto. }
    intros j w Hw H0. rewrite occurrences_cons.
    assert (Hc : 0 <= INR (occurrences (length v) j idx) * p).
    { apply Rmult_le_pos; [apply pos_INR|done]. }
    destruct (decide (k = j)) as [->|Hne].
    + rewrite decide_True by done.
      rewrite (Hlook j (Py.max0 (w - p))).
      * f_equal. rewrite max0_clamp by done. f_equal.
        rewrite plus_INR. simpl. lra.
      * rewrite list_lookup_insert_eq by (by eapply lookup_lt_Some).
        by simplify_eq.
      * apply max0_nonneg.
    + rewrite decide_False by congruence.
      rewrite (Hlook j w); [done| |done].
      by rewrite list_lookup_insert_ne.
Qed.

Lemma penalize_run_valid (p : R) (idx : list Z) (v : list R) :
  Forall (valid_index (length v)) idx →
  is_Some (Py.foldlM (penalize p) v idx).
Proof.
  revert v. induction idx as [|i idx IH]; intros v H; simpl; [eauto|].
  inversion H as [|?? Hi Hidx]; subst.
  destruct (penalize_valid p v i Hi) as [v1 H1]. rewrite H1. simpl.
  apply IH. apply penalize_Some in H1 as (k & wk & _ & _ & ->).
  by rewrite length_insert.
Qed.

Lemma penalize_run_one (p : R) (v : list R) (i : Z) :
  Py.foldlM (penalize p) v [i] = penalize p v i.
Proof. simpl. by destruct (penalize p v i). Qed.

(** ** The loop over the previous orders *)

Lemma score_order_Some (today : Z) (nf nf' : factors) (r : record) :
  score_order today nf r = Some nf' ↔
  ∃ p, novelty_penalty (IZR (today - date r)) = Some p ∧
    Py.foldlM (penalize p) (f_toppings nf) (topping_refs r) = Some (f_toppings nf') ∧
    Py.foldlM (penalize p) (f_tea_type nf) (tea_type_refs r) = Some (f_tea_type nf') ∧
    Py.foldlM (penalize p) (f_ice_category nf) (ice_category_refs r)
      = Some (f_ice_category nf').
Proof.
  unfold score_order, topping_refs, tea_type_refs, ice_category_refs. split.
  - intros H.
    destruct (novelty_penalty _) as [p|]; [|done]. simpl in H.
    destruct (Py.foldlM _ _ _) as [tops|] eqn:Hf; [|done]. simpl in H.
    destruct (penalize p (f_tea_type nf) _) as [tea|] eqn:Ht; [|done]. simpl in H.
    destruct (penalize p (f_ice_category nf) _) as [ice|] eqn:Hi; [|done]. simpl in H.
    simplify_eq. exists p. by rewrite !penalize_run_one.
  - intros (p & Hp & Hf & Ht & Hi). rewrite penalize_run_one in Ht, Hi.
    rewrite Hp. simpl. rewrite Hf. simpl. rewrite Ht. simpl. rewrite Hi. simpl.
    by destruct nf'.
Qed.

Lemma penalty_of_Some (today : Z) (r : record) (p : R) :
  novelty_penalty (IZR (today - date r)) = Some p → penalty_of today r = p.
Proof. unfold penalty_of. by intros ->. Qed.

Lemma penalty_of_range (today : Z) (r : record) : 0 <= penalty_of today r <= 1.
Proof.
  unfold penalty_of. destruct (novelty_penalty _) as [p|] eqn:H; simpl; [|lra].
  by apply novelty_penalty_Some in H as [_ ?].
Qed.

Lemma occurrence_penalties_nonneg today refs n j h :
  0 <= occurrence_penalties today refs n j h.
Proof.
  unfold occurrence_penalties. induction h as [|r h IH]; simpl; [lra|].
  pose proof (penalty_of_range today r) as [? _].
  pose proof (pos_INR (occurrences n j (refs r))). nra.
Qed.

Section Field.

Variable field : factors → list R.
Variable refs : record → list Z.
Hypothesis field_step : ∀ today nf r nf',
  score_order today nf r = Some nf' →
  ∃ p, novelty_penalty (IZR (today - date r)) = Some p ∧
       Py.foldlM (penalize p) (field nf) (refs r) = Some (field nf').

Lemma history_field (today : Z) (h : list record) (nf0 nf : factors) :
  Py.foldlM (score_order today) nf0 h = Some nf →
  Forall (λ w, 0 <= w) (field nf0) →
  length (field nf) = length (field nf0) ∧
  Forall (λ r, (date r <= today)%Z ∧
               Forall (valid_index (length (field nf0))) (refs r)) h ∧
  ∀ j w, field nf0 !! j = Some w →
    field nf !! j =
      Some (Py.max0 (w - occurrence_penalties today refs (length (field nf0)) j h)).
Proof.
  revert nf0. induction h as [|r h IH]; intros nf0 H Hpos; simpl in H.
  - simplify_eq. split; [done|]. split; [constructor|].
    intros j w Hw. rewrite Hw. f_equal. unfold occurrence_penalties. simpl.
    rewrite max0_id; [done|]. eapply Forall_lookup_1 in Hpos; eauto.
  - destruct (score_order today nf0 r) as [nf1|] eqn:H1; [|done]. simpl in H.
    destruct (field_step _ _ _ _ H1) as (p & Hp & Hrun).
    pose proof (novelty_penalty_Some _ _ Hp) as [Hd [Hp0 Hp1]].
    apply penalize_run in Hrun as (Hlen & Hval & Hlook); [|done].
    assert (Hpos1 : Forall (λ w, 0 <= w) (field nf1)).
    { apply Forall_lookup_2. intros j w1 Hw1.
      destruct (lookup_lt_is_Some_2 (field nf0) j) as [w Hw].
      { rewrite <- Hlen. by eapply lookup_lt_Some. }
      rewrite (Hlook j w Hw) in Hw1 by (eapply Forall_lookup_1 in Hpos; eauto).
      simplify_eq. apply max0_nonneg. }
    apply IH in H as (Hlen' & Hval' & Hlook'); [|done].
    rewrite Hlen in Hlen', Hval', Hlook'.
    split; [done|]. split.
    { constructor; [|done]. split; [|done].
      apply le_IZR in Hd. lia. }
    intros j w Hw.
    assert (0 <= w) by (eapply Forall_lookup_1 in Hpos; eauto).
    rewrite (Hlook' j _ (Hlook j w Hw ltac:(done))). f_equal.
    rewrite max0_clamp by apply occurrence_penalties_nonneg.
    unfold occurrence_penalties at 2. simpl.
    by rewrite (penalty_of_Some _ _ _ Hp).
Qed.

End Field.

Lemma toppings_step today nf r nf' :
  score_order today nf r = Some nf' →
  ∃ p, novelty_penalty (IZR (today - date r)) = Some p ∧
       Py.foldlM (penalize p) (f_toppings nf) (topping_refs r) = Some (f_toppings nf').
Proof. intros (p & ? & ? & ? & ?)%score_order_Some. eauto. Qed.

Lemma tea_type_step today nf r nf' :
  score_order today nf r = Some nf' →
  ∃ p, novelty_penalty (IZR (today - date r)) = Some p ∧
       Py.foldlM (penalize p) (f_tea_type nf) (tea_type_refs r) = Some (f_tea_type nf').
Proof. intros (p & ? & ? & ? & ?)%score_order_Some. eauto. Qed.

Lemma ice_category_step today nf r nf' :
  score_order today nf r = Some nf' →
  ∃ p, novelty_penalty (IZR (today - date r)) = Some p ∧
       Py.foldlM (penalize p) (f_ice_category nf) (ice_category_refs r)
         = Some (f_ice_category nf').
Proof. intros (p & ? & ? & ? & ?)%score_order_Some. eauto. Qed.

Lemma score_order_valid (today : Z) (nf : factors) (r : record) :
  length (f_toppings nf) = length Order.topping_list →
  length (f_tea_type nf) = length Order.tea_types →
  length (f_ice_category nf) = length Order.ice_categories →
  valid_record today r →
  ∃ nf', score_order today nf r = Some nf' ∧
    length (f_toppings nf') = length Order.topping_list ∧
    length (f_tea_type nf') = length Order.tea_types ∧
    length (f_ice_category nf') = length Order.ice_categories.
Proof.
  intros L1 L2 L3 (Hd & V1 & V2 & V3).
  destruct (novelty_penalty_days (today - date r)) as [p Hp]; [lia|].
  pose proof (novelty_penalty_Some _ _ Hp) as [_ [Hp0 _]].
  destruct (penalize_run_valid p (topping_refs r) (f_toppings nf)) as [t Ht].
  { by rewrite L1. }
  destruct (penalize_run_valid p (tea_type_refs r) (f_tea_type nf)) as [a Ha].
  { rewrite L2. by constructor. }
  destruct (penalize_run_valid p (ice_category_refs r) (f_ice_category nf)) as [c Hc].
  { rewrite L3. by constructor. }
  exists (mkfactors t a c). split.
  - apply score_order_Some. exists p. done.
  - simpl. apply penalize_run in Ht as [Ht _]; [|done].
    apply penalize_run in Ha as [Ha _]; [|done].
    apply penalize_run in Hc as [Hc _]; [|done].
    rewrite Ht, Ha, Hc. done.
Qed.

Lemma score_history_valid (today : Z) (h : list record) (nf : factors) :
  length (f_toppings nf) = length Order.topping_list →
  length (f_tea_type nf) = length Order.tea_types →
  length (f_ice_category nf) = length Order.ice_categories →
  Forall (valid_record today) h →
  is_Some (Py.foldlM (score_order today) nf h).
Proof.
  revert nf. induction h as [|r h IH]; intros nf L1 L2 L3 H; simpl; [eauto|].
  inversion H as [|?? Hr Hh]; subst.
  destruct (score_order_valid today nf r L1 L2 L3 Hr) as (nf' & -> & ? & ? & ?).
  simpl. by apply IH.
Qed.

Lemma novelty_factors_valid (today : Z) (h : list record) :
  Forall (valid_record today) h → is_Some (novelty_factors today h).
Proof. intros H. by apply score_history_valid. Qed.

Lemma initial_factors_nonneg :
  Forall (λ w, 0 <= w) (f_toppings initial_factors) ∧
  Forall (λ w, 0 <= w) (f_tea_type initial_factors) ∧
  Forall (λ w, 0 <= w) (f_ice_category initial_factors).
Proof. repeat split; simpl; repeat constructor; lra. Qed.

Lemma initial_factors_lookup (j : nat) :
  ((j < 10)%nat → f_toppings initial_factors !! j = Some 1) ∧
  ((j < 8)%nat → f_tea_type initial_factors !! j = Some 1) ∧
  ((j < 4)%nat → f_ice_category initial_factors !! j = Some 1).
Proof.
  repeat split; intros H; simpl;
    repeat (destruct j as [|j]; [done|]); lia.
Qed.

(** ** The novelty factors of a history *)

Lemma novelty_factors_lookup (today : Z) (h : list record) (nf : factors) :
  novelty_factors today h = Some nf →
  (length (f_toppings nf) = 10%nat ∧ length (f_tea_type nf) = 8%nat ∧
   length (f_ice_category nf) = 4%nat) ∧
  Forall (valid_record today) h ∧
  (∀ j, (j < 10)%nat → f_toppings nf !! j =
     Some (Py.max0 (1 - occurrence_penalties today topping_refs 10 j h))) ∧
  (∀ j, (j < 8)%nat → f_tea_type nf !! j =
     Some (Py.max0 (1 - occurrence_penalties today tea_type_refs 8 j h))) ∧
  (∀ j, (j < 4)%nat → f_ice_category nf !! j =
     Some (Py.max0 (1 - occurrence_penalties today ice_category_refs 4 j h))).
Proof.
  intros H. unfold novelty_factors in H.
  destruct initial_factors_nonneg as (P1 & P2 & P3).
  destruct (history_field _ _ toppings_step today h _ _ H P1) as (L1 & V1 & F1).
  destruct (history_field _ _ tea_type_step today h _ _ H P2) as (L2 & V2 & F2).
  destruct (history_field _ _ ice_category_step today h _ _ H P3) as (L3 & V3 & F3).
  split; [done|]. split.
  { apply Forall_forall. intros r Hr.
    rewrite Forall_forall in V1, V2, V3.
    destruct (V1 r Hr) as [? ?], (V2 r Hr) as [_ T], (V3 r Hr) as [_ I].
    inversion T; subst. inversion I; subst. done. }
  split; [|split].
  - intros j Hj. apply F1. by apply initial_factors_lookup.
  - intros j Hj. apply F2. by apply initial_factors_lookup.
  - intros j Hj. apply F3. by apply initial_factors_lookup.
Qed.

Lemma max0_unit (s : R) : 0 <= s → 0 <= Py.max0 (1 - s) <= 1.
Proof. intros H. split; [apply max0_nonneg | apply max0_le; lra]. Qed.

Lemma vector_unit (v : list R) (n : nat) (s : nat → R) :
  length v = n →
  (∀ j, (j < n)%nat → v !! j = Some (Py.max0 (1 - s j))) →
  (∀ j, 0 <= s j) →
  Forall (λ w, 0 <= w <= 1) v.
Proof.
  intros L F Hs. apply Forall_lookup_2. intros j w Hw.
  rewrite F in Hw by (rewrite <- L; by eapply lookup_lt_Some).
  simplify_eq. by apply max0_unit.
Qed.

Lemma vector_eq (v v' : list R) (n : nat) (s s' : nat → R) :
  length v = n → length v' = n →
  (∀ j, (j < n)%nat → v !! j = Some (Py.max0 (1 - s j))) →
  (∀ j, (j < n)%nat → v' !! j = Some (Py.max0 (1 - s' j))) →
  (∀ j, s j = s' j) →
  v' = v.
Proof.
  intros L L' F F' Hs. apply list_eq. intros j.
  destruct (decide (j < n)%nat) as [Hj|Hj].
  - by rewrite F, F', Hs.
  - rewrite !lookup_ge_None_2 by lia. done.
Qed.

Lemma Rsum_Permutation (l l' : list R) : Permutation l l' → Rsum l = Rsum l'.
Proof. induction 1; simpl; lra. Qed.

Lemma occurrence_penalties_Permutation today refs n j (h h' : list record) :
  Permutation h h' →
  occurrence_penalties today refs n j h = occurrence_penalties today refs n j h'.
Proof.
  intros H. unfold occurrence_penalties. apply Rsum_Permutation.
  by apply Permutation_map.
Qed.

Lemma novelty_factors_Permutation (today : Z) (h h' : list record) (nf : factors) :
  novelty_factors today h = Some nf → Permutation h h' →
  novelty_factors today h' = Some nf.
Proof.
  intros H HP.
  destruct (novelty_factors_lookup _ _ _ H) as ((L1 & L2 & L3) & V & F1 & F2 & F3).
  destruct (novelty_factors_valid today h') as [nf' H'].
  { by rewrite <- HP. }
  rewrite H'. f_equal.
  destruct (novelty_factors_lookup _ _ _ H') as ((M1 & M2 & M3) & _ & G1 & G2 & G3).
  destruct nf as [t a c], nf' as [t' a' c']. simpl in *. f_equal.
  - apply (vector_eq _ _ _ _ _ L1 M1 F1 G1). intros j.
    by apply occurrence_penalties_Permutation.
  - apply (vector_eq _ _ _ _ _ L2 M2 F2 G2). intros j.
    by apply occurrence_penalties_Permutation.
  - apply (vector_eq _ _ _ _ _ L3 M3 F3 G3). intros j.
    by apply occurrence_penalties_Permutation.
Qed.

Lemma occurrences_one (n j : nat) (i : Z) : (occurrences n j [i] <= 1)%nat.
Proof. rewrite occurrences_cons. unfold occurrences. simpl. case_decide; lia. Qed.

Lemma record_penalties_once today refs n j (h : list record) :
  Forall (λ r, (occurrences n j (refs r) <= 1)%nat) h →
  record_penalties today refs n j h = occurrence_penalties today refs n j h.
Proof.
  unfold record_penalties, occurrence_penalties.
  induction 1 as [|r h Hr _ IH]; simpl; [done|]. rewrite IH. f_equal.
  case_decide as H0.
  - rewrite H0. simpl. lra.
  - replace (occurrences n j (refs r)) with 1%nat by lia. simpl. lra.
Qed.


Lemma occurrences_pos (n j : nat) (idx : list Z) :
  (0 < occurrences n j idx)%nat → ∃ i, i ∈ idx ∧ Py.norm_index n i = Some j.
Proof.
  induction idx as [|i idx IH]; [unfold occurrences; simpl; lia|].
  rewrite occurrences_cons. case_decide as Hi.
  - intros _. exists i. split; [left|done].
  - intros H. destruct IH as (i' & ? & ?); [lia|]. exists i'. split; [by right|done].
Qed.

Lemma norm_index_nonneg_inv (n j : nat) (i : Z) :
  (0 <= i)%Z → Py.norm_index n i = Some j → i = Z.of_nat j.
Proof.
  unfold Py.norm_index. intros Hi H. repeat case_match; simplify_eq; lia.
Qed.

Lemma occurrences_NoDup (n j : nat) (idx : list Z) :
  NoDup idx → Forall (λ i, (0 <= i)%Z) idx → (occurrences n j idx <= 1)%nat.
Proof.
  induction 1 as [|i idx Hi Hnd IH]; intros Hpos.
  - unfold occurrences. simpl. lia.
  - inversion Hpos as [|?? Hi0 Hpos']; subst. rewrite occurrences_cons.
    case_decide as Hj; [|by apply IH].
    destruct (decide (0 < occurrences n j idx)%nat) as [Hocc|]; [|lia].
    exfalso. apply occurrences_pos in Hocc as (i' & Hin & Hj').
    apply norm_index_nonneg_inv in Hj; [|done].
    apply norm_index_nonneg_inv in Hj'.
    + apply Hi. by rewrite Hj, <- Hj'.
    + rewrite Forall_forall in Hpos'. by apply Hpos'.
Qed.

(** C3: whatever the history, as long as no record is dated in the future,
    every weight of the three vectors the scorer returns lies in [0, 1]; the
    scorer does return them when every stored index addresses its domain. *)
Theorem novelty_factors_unit_interval (today : Z) (h : list record) :
  Forall (λ r, (date r <= today)%Z) h →
  (Forall (valid_record today) h → is_Some (novelty_factors today h)) ∧
  ∀ nf, novelty_factors today h = Some nf →
    Forall (λ w, 0 <= w <= 1) (f_toppings nf) ∧
    Forall (λ w, 0 <= w <= 1) (f_tea_type nf) ∧
    Forall (λ w, 0 <= w <= 1) (f_ice_category nf).
Proof.
  intros _. split; [apply novelty_factors_valid|].
  intros nf H.
  destruct (novelty_factors_lookup _ _ _ H) as ((L1 & L2 & L3) & _ & F1 & F2 & F3).
  repeat split.
  - apply (vector_unit _ _ _ L1 F1). intros j. apply occurrence_penalties_nonneg.
  - apply (vector_unit _ _ _ L2 F2). intros j. apply occurrence_penalties_nonneg.
  - apply (vector_unit _ _ _ L3 F3). intros j. apply occurrence_penalties_nonneg.
Qed.

(** C1, as the loop computes it: the weight of a value is [max(1 - S, 0)],
    where [S] adds the penalty of a stored order once for every occurrence
    of the value in that order (so once per order for tea type and ice
    category, and once per listed copy for a topping); permuting the
    history leaves the three vectors unchanged. *)
Theorem novelty_weight_sum (today : Z) (h : list record) :
  Forall (λ r, (date r <= today)%Z) h →
  (Forall (valid_record today) h → is_Some (novelty_factors today h)) ∧
  ∀ nf, novelty_factors today h = Some nf →
    (∀ j, (j < 10)%nat → f_toppings nf !! j =
       Some (Rmax (1 - occurrence_penalties today topping_refs 10 j h) 0)) ∧
    (∀ j, (j < 8)%nat → f_tea_type nf !! j =
       Some (Rmax (1 - record_penalties today tea_type_refs 8 j h) 0)) ∧
    (∀ j, (j < 4)%nat → f_ice_category nf !! j =
       Some (Rmax (1 - record_penalties today ice_category_refs 4 j h) 0)) ∧
    (Forall (λ r, NoDup (topping_refs r) ∧
                  Forall (λ i, (0 <= i)%Z) (topping_refs r)) h →
     ∀ j, (j < 10)%nat → f_toppings nf !! j =
       Some (Rmax (1 - record_penalties today topping_refs 10 j h) 0)) ∧
    ∀ h', Permutation h h' → novelty_factors today h' = Some nf.
Proof.
  intros _. split; [apply novelty_factors_valid|].
  intros nf H.
  destruct (novelty_factors_lookup _ _ _ H) as (_ & _ & F1 & F2 & F3).
  split; [exact F1|]. split; [|split; [|split]].
  - intros j Hj. rewrite record_penalties_once; [by apply F2|].
    apply Forall_forall. intros r _. apply occurrences_one.
  - intros j Hj. rewrite record_penalties_once; [by apply F3|].
    apply Forall_forall. intros r _. apply occurrences_one.
  - intros Hnd j Hj. rewrite record_penalties_once; [by apply F1|].
    eapply Forall_impl; [exact Hnd|]. intros r [? ?].
    by apply occurrences_NoDup.
  - intros h' HP. by eapply novelty_factors_Permutation.
Qed.

Lemma novelty_weight_sum_witness :
  Forall (λ r, (date r <= 0)%Z) scenario_history ∧
  (Forall (valid_record 0) scenario_history →
   is_Some (novelty_factors 0 scenario_history)) ∧
  ∀ nf, novelty_factors 0 scenario_history = Some nf →
    (∀ j, (j < 10)%nat → f_toppings nf !! j =
       Some (Rmax (1 - occurrence_penalties 0 topping_refs 10 j scenario_history) 0)) ∧
    (∀ j, (j < 8)%nat → f_tea_type nf !! j =
       Some (Rmax (1 - record_penalties 0 tea_type_refs 8 j scenario_history) 0)) ∧
    (∀ j, (j < 4)%nat → f_ice_category nf !! j =
       Some (Rmax (1 - record_penalties 0 ice_category_refs 4 j scenario_history) 0)) ∧
    (Forall (λ r, NoDup (topping_refs r) ∧
                  Forall (λ i, (0 <= i)%Z) (topping_refs r)) scenario_history →
     ∀ j, (j < 10)%nat → f_toppings nf !! j =
       Some (Rmax (1 - record_penalties 0 topping_refs 10 j scenario_history) 0)) ∧
    ∀ h', Permutation scenario_history h' → novelty_factors 0 h' = Some nf.
Proof.
  assert (H : Forall (λ r, (date r <= 0)%Z) scenario_history)
    by (constructor; [simpl; lia | constructor]).
  split; [exact H | exact (novelty_weight_sum 0 scenario_history H)].
Defined.

Lemma novelty_factors_unit_interval_witness :
  Forall (λ r, (date r <= 0)%Z) scenario_history ∧
  (Forall (valid_record 0) scenario_history →
   is_Some (novelty_factors 0 scenario_history)) ∧
  ∀ nf, novelty_factors 0 scenario_history = Some nf →
    Forall (λ w, 0 <= w <= 1) (f_toppings nf) ∧
    Forall (λ w, 0 <= w <= 1) (f_tea_type nf) ∧
    Forall (λ w, 0 <= w <= 1) (f_ice_category nf).
Proof.
  assert (H : Forall (λ r, (date r <= 0)%Z) scenario_history)
    by (constructor; [simpl; lia | constructor]).
  split; [exact H | exact (novelty_factors_unit_interval 0 scenario_history H)].
Defined.

Lemma sqrt_5_bounds : 0 < sqrt 5 < 5.
Proof.
  split; [apply sqrt_lt_R0; lra|].
  rewrite <- sqrt_25 at 2. apply sqrt_lt_1_alt. lra.
Qed.

(** The claim C1 as it is written fails on a history whose one record lists
    topping 3 twice and is one day old: the loop subtracts the penalty
    twice, the sum over the records that refer to the topping counts it once. *)
Lemma novelty_weight_record_sum_fails :
  Forall (λ r, (date r <= 1)%Z) repeated_topping_history ∧
  ∃ nf w, novelty_factors 1 repeated_topping_history = Some nf ∧
    f_toppings nf !! 3%nat = Some w ∧
    w ≠ Rmax (1 - record_penalties 1 topping_refs 10 3 repeated_topping_history) 0.
Proof.
  split; [constructor; [simpl; lia | constructor]|].
  destruct (novelty_factors_valid 1 repeated_topping_history) as [nf H].
  { constructor; [|constructor].
    unfold valid_record, valid_index. simpl.
    split; [lia|]. split; [|lia].
    repeat (constructor; [lia|]). constructor. }
  destruct (novelty_factors_lookup _ _ _ H) as (_ & _ & F1 & _).
  eexists nf, _. split; [done|]. split; [apply F1; lia|].
  unfold occurrence_penalties, record_penalties, repeated_topping_history,
    topping_refs, penalty_of. simpl.
  change (IZR (1 - 0)) with 1.
  rewrite novelty_penalty_nonneg_days by lra. simpl.
  rewrite Rmult_1_r. pose proof sqrt_5_bounds as [? ?].
  unfold Py.max0, Rmax. repeat destruct (Rle_dec _ _); lra.
Qed.

(** ** The generator *)

Lemma float_at_range (g : Random.rng) (i : nat) : 0 <= float_at g i < 1.
Proof. unfold float_at. apply Random.uf_range. Qed.

Lemma skip_0 (g : Random.rng) : skip 0 g = g.
Proof. destruct g as [s p]. unfold skip. simpl. by rewrite Nat.add_0_r. Qed.

Lemma skip_advance (k : nat) (g : Random.rng) :
  skip k (Random.advance g) = skip (S k) g.
Proof. unfold skip, Random.advance. simpl. f_equal. lia. Qed.

Lemma skip_skip (k k' : nat) (g : Random.rng) :
  skip k (skip k' g) = skip (k' + k) g.
Proof. unfold skip. simpl. f_equal. lia. Qed.

Lemma advance_skip (g : Random.rng) : Random.advance g = skip 1 g.
Proof. unfold skip, Random.advance. f_equal. lia. Qed.

Lemma random_run (g : Random.rng) :
  Random.random g = Some (float_at g (Random.pos g), skip 1 g).
Proof. unfold Random.random, Random.next. by rewrite advance_skip. Qed.

Lemma bind_run {A B} (m : Random.M A) (f : A → Random.M B) g x g' :
  m g = Some (x, g') → Random.bind m f g = f x g'.
Proof. intros H. unfold Random.bind. by rewrite H. Qed.

Lemma mbind_run {A B} (m : Random.M A) (f : A → Random.M B) g x g' :
  m g = Some (x, g') → (m ≫= f) g = f x g'.
Proof. apply bind_run. Qed.

Lemma lift_run {A} (o : option A) (x : A) (g : Random.rng) :
  o = Some x → Random.lift o g = Some (x, g).
Proof. by intros ->. Qed.

Lemma one_draw_run {A} (φ : R → option A) (g : Random.rng) (x : A) :
  φ (float_at g (Random.pos g)) = Some x →
  Random.bind Random.random (λ u, Random.lift (φ u)) g = Some (x, skip 1 g).
Proof.
  intros H. rewrite (bind_run _ _ _ _ _ (random_run g)). by apply lift_run.
Qed.

Lemma replicate_draws {A} (φ : R → option A) (k : nat) (g : Random.rng) :
  (∀ u, 0 <= u < 1 → is_Some (φ u)) →
  ∃ xs, Random.replicate k (Random.bind Random.random (λ u, Random.lift (φ u))) g
          = Some (xs, skip k g) ∧
    length xs = k ∧
    ∀ j, (j < k)%nat → xs !! j = φ (float_at g (Random.pos g + j)).
Proof.
  intros Hφ. revert g. induction k as [|k IH]; intros g.
  - exists []. simpl. unfold Random.ret. rewrite skip_0.
    split; [done|]. split; [done|]. intros j Hj. lia.
  - destruct (Hφ (float_at g (Random.pos g)) (float_at_range _ _)) as [x Hx].
    destruct (IH (skip 1 g)) as (xs & Hrun & Hlen & Hlook).
    exists (x :: xs). split; [|split].
    + simpl Random.replicate.
      rewrite (bind_run _ _ _ _ _ (one_draw_run φ g x Hx)).
      rewrite (bind_run _ _ _ _ _ Hrun). unfold Random.ret.
      by rewrite skip_skip.
    + simpl. by rewrite Hlen.
    + intros [|j] Hj.
      * simpl. by rewrite Nat.add_0_r.
      * simpl. rewrite Hlook by lia. f_equal. unfold float_at. simpl.
        do 3 f_equal. lia.
Qed.

(** ** Cumulative weights and their bisection *)

Lemma fold_left_Rplus (l : list R) (a : R) :
  fold_left Rplus l a = a + fold_left Rplus l 0.
Proof.
  revert a. induction l as [|x l IH]; intros a; simpl; [lra|].
  rewrite (IH (a + x)), (IH (0 + x)). lra.
Qed.

Lemma sum_cons (x : R) (l : list R) : Py.sum (x :: l) = x + Py.sum l.
Proof. unfold Py.sum. simpl. rewrite fold_left_Rplus. lra. Qed.

Lemma sum_app (l l' : list R) : Py.sum (l ++ l') = Py.sum l + Py.sum l'.
Proof.
  induction l as [|x l IH]; simpl.
  - unfold Py.sum at 2. simpl. lra.
  - rewrite !sum_cons, IH. lra.
Qed.

Lemma sum_nonneg (l : list R) : Forall (λ w, 0 <= w) l → 0 <= Py.sum l.
Proof.
  induction 1 as [|x l Hx _ IH]; [unfold Py.sum; simpl; lra|].
  rewrite sum_cons. lra.
Qed.

Lemma prefix_sum_0 (v : list R) : prefix_sum v 0 = 0.
Proof. unfold prefix_sum. by rewrite take_0. Qed.

Lemma prefix_sum_S (v : list R) (i : nat) (w : R) :
  v !! i = Some w → prefix_sum v (S i) = prefix_sum v i + w.
Proof.
  intros H. unfold prefix_sum. rewrite (take_S_r _ _ _ H), sum_app.
  f_equal. unfold Py.sum. simpl. lra.
Qed.

Lemma prefix_sum_all (v : list R) (i : nat) :
  (length v <= i)%nat → prefix_sum v i = Py.sum v.
Proof. intros H. unfold prefix_sum. by rewrite take_ge. Qed.

Lemma prefix_sum_mono (v : list R) (i j : nat) :
  Forall (λ w, 0 <= w) v → (i <= j)%nat → prefix_sum v i <= prefix_sum v j.
Proof.
  intros Hv. induction 1 as [|j _ IH]; [lra|].
  destruct (v !! j) as [w|] eqn:Hw.
  - rewrite (prefix_sum_S _ _ _ Hw).
    eapply Forall_lookup_1 in Hv; [|exact Hw]. simpl in Hv. lra.
  - apply lookup_ge_None in Hw.
    rewrite (prefix_sum_all v (S j)) by lia.
    by rewrite (prefix_sum_all v j) in IH by lia.
Qed.

Lemma accumulate_from_lookup (l : list R) (acc : R) (i : nat) :
  (i < length l)%nat →
  Py.accumulate_from acc l !! i = Some (acc + prefix_sum l (S i)).
Proof.
  revert acc i. induction l as [|x l IH]; intros acc i Hi; simpl in Hi; [lia|].
  destruct i as [|i]; simpl.
  - unfold prefix_sum. simpl. rewrite take_0. unfold Py.sum. simpl.
    f_equal. lra.
  - rewrite IH by lia. f_equal. unfold prefix_sum. simpl.
    rewrite (sum_cons x). fold (prefix_sum l (S i)). unfold prefix_sum. simpl. lra.
Qed.

Lemma accumulate_from_length (l : list R) (acc : R) :
  length (Py.accumulate_from acc l) = length l.
Proof. revert acc. induction l as [|x l IH]; intros acc; simpl; [done|]. by rewrite IH. Qed.

Lemma accumulate_length (l : list R) : length (Py.accumulate l) = length l.
Proof. destruct l; simpl; [done|]. by rewrite accumulate_from_length. Qed.

Lemma accumulate_lookup (l : list R) (i : nat) :
  (i < length l)%nat → Py.accumulate l !! i = Some (prefix_sum l (S i)).
Proof.
  destruct l as [|x l]; simpl; intros Hi; [lia|].
  destruct i as [|i]; simpl.
  - unfold prefix_sum. simpl. rewrite take_0. unfold Py.sum. simpl. f_equal. lra.
  - rewrite accumulate_from_lookup by lia. f_equal.
    unfold prefix_sum. simpl. by rewrite (sum_cons x).
Qed.

Lemma accumulate_last (l : list R) :
  l ≠ [] → last (Py.accumulate l) = Some (Py.sum l).
Proof.
  intros Hl. rewrite last_lookup, accumulate_length.
  destruct l as [|x l]; [done|]. simpl length. simpl Nat.pred.
  rewrite accumulate_lookup by (simpl; lia).
  f_equal. apply prefix_sum_all. simpl. lia.
Qed.

Lemma bisect_spec (a : list R) (x : R) (hi : nat) :
  (hi <= length a)%nat →
  (Py.bisect a x hi <= hi)%nat ∧
  (∀ j c, (j < Py.bisect a x hi)%nat → a !! j = Some c → c <= x) ∧
  ((Py.bisect a x hi < hi)%nat →
   ∃ c, a !! Py.bisect a x hi = Some c ∧ x < c).
Proof.
  revert a. induction hi as [|hi IH]; intros a Hhi.
  - destruct a; simpl; (split; [lia|]; split; intros; lia).
  - destruct a as [|c a]; simpl in Hhi; [lia|]. simpl.
    destruct (Rlt_dec x c) as [Hlt|Hge].
    + split; [lia|]. split; [intros; lia|]. intros _. exists c. done.
    + destruct (IH a) as (B1 & B2 & B3); [lia|].
      split; [lia|]. split.
      * intros [|j] c' Hj Hc'; simpl in Hc'; [simplify_eq; lra|].
        eapply B2; [|done]. lia.
      * intros Hlt. simpl. apply B3. lia.
Qed.

(** ** Drawing values of a domain *)

Lemma range_len_length {A} (v : list A) :
  length (Py.range 0 (Py.len v)) = length v.
Proof. rewrite range_length. unfold Py.len. lia. Qed.

Lemma range_len_lookup {A} (v : list A) (i : nat) :
  (i < length v)%nat → Py.range 0 (Py.len v) !! i = Some (Z.of_nat i).
Proof.
  intros H. rewrite range_lookup by (unfold Py.len; lia). done.
Qed.

Lemma uniform_draw {A} (v : list A) (u : R) :
  v ≠ [] → 0 <= u < 1 →
  ∃ i, Py.getitem (Py.range 0 (Py.len v))
         (Int_part (u * INR (length (Py.range 0 (Py.len v))))) = Some (Z.of_nat i) ∧
       (i < length v)%nat ∧ uniform_share (length v) i u.
Proof.
  intros Hv Hu. rewrite range_len_length.
  assert (Hn : (0 < Z.of_nat (length v))%Z) by (destruct v; [done|simpl; lia]).
  rewrite INR_IZR_INZ.
  destruct (int_unit u _ Hu Hn) as [_ Hz].
  set (z := Int_part (u * IZR (Z.of_nat (length v)))) in *.
  exists (Z.to_nat z). rewrite Z2Nat.id by lia.
  split; [|split].
  - unfold Py.getitem. rewrite range_len_length.
    rewrite norm_index_nonneg by lia. simpl.
    rewrite range_len_lookup by lia. f_equal. lia.
  - lia.
  - unfold uniform_share. rewrite !INR_IZR_INZ, Z2Nat.id by lia.
    destruct (base_Int_part (u * IZR (Z.of_nat (length v)))). fold z in H, H0. lra.
Qed.

Lemma weighted_draw (v : list R) (u : R) :
  Forall (λ w, 0 <= w) v → 0 < Py.sum v → 0 <= u < 1 →
  let i := Py.bisect (Py.accumulate v) (u * Py.sum v)
             (length (Py.range 0 (Py.len v)) - 1) in
  Py.range 0 (Py.len v) !! i = Some (Z.of_nat i) ∧
  (i < length v)%nat ∧ weighted_share v i u.
Proof.
  intros Hv Hs Hu. rewrite range_len_length. intros i.
  assert (Hlen : (0 < length v)%nat).
  { destruct v; [|simpl; lia]. unfold Py.sum in Hs. simpl in Hs. lra. }
  destruct (bisect_spec (Py.accumulate v) (u * Py.sum v) (length v - 1))
    as (B1 & B2 & B3).
  { rewrite accumulate_length. lia. }
  fold i in B1, B2, B3.
  assert (Hi : (i < length v)%nat) by lia.
  split; [by apply range_len_lookup|]. split; [done|].
  unfold weighted_share. split.
  - destruct i as [|i'] eqn:Ei.
    + rewrite prefix_sum_0. nra.
    + apply (B2 i'); [lia|]. apply accumulate_lookup. lia.
  - destruct (decide (i < length v - 1)%nat) as [Hlt|Hge].
    + destruct (B3 Hlt) as (c & Hc & Hx).
      rewrite accumulate_lookup in Hc by lia. by simplify_eq.
    + rewrite prefix_sum_all by lia. nra.
Qed.

Lemma weighted_share_unique (v : list R) (i i' : nat) (u : R) :
  Forall (λ w, 0 <= w) v →
  weighted_share v i u → weighted_share v i' u → i = i'.
Proof.
  intros Hv [L U] [L' U'].
  destruct (lt_eq_lt_dec i i') as [[H|H]|H]; [|done|].
  - pose proof (prefix_sum_mono v (S i) i' Hv ltac:(lia)). lra.
  - pose proof (prefix_sum_mono v (S i') i Hv ltac:(lia)). lra.
Qed.

Lemma uniform_share_unique (n i i' : nat) (u : R) :
  uniform_share n i u → uniform_share n i' u → i = i'.
Proof.
  unfold uniform_share. rewrite !INR_IZR_INZ. intros [L U] [L' U'].
  assert (IZR (Z.of_nat i) < IZR (Z.of_nat i') + 1) as H1 by lra.
  assert (IZR (Z.of_nat i') < IZR (Z.of_nat i) + 1) as H2 by lra.
  rewrite <- plus_IZR in H1, H2. apply lt_IZR in H1, H2. lia.
Qed.

Lemma draw_values_spec (v : list R) (k : nat) (g : Random.rng) :
  v ≠ [] → Forall (λ w, 0 <= w) v →
  ∃ xs, draw_values v k g = Some (xs, skip k g) ∧ length xs = k ∧
    ∀ j, (j < k)%nat →
      ∃ i, xs !! j = Some (Z.of_nat i) ∧ (i < length v)%nat ∧
        (Py.sum v = 0 → uniform_share (length v) i (float_at g (Random.pos g + j))) ∧
        (Py.sum v ≠ 0 → weighted_share v i (float_at g (Random.pos g + j))).
Proof.
  intros Hne Hv. unfold draw_values, v_or_none.
  destruct (Req_dec_T (Py.sum v) 0) as [H0|H0]; unfold Random.choices.
  - destruct (replicate_draws
      (λ u, Py.getitem (Py.range 0 (Py.len v))
              (Int_part (u * INR (length (Py.range 0 (Py.len v)))))) k g)
      as (xs & Hrun & Hlen & Hlook).
    { intros u Hu. destruct (uniform_draw v u Hne Hu) as (i & -> & _). eauto. }
    exists xs. split; [exact Hrun|]. split; [done|].
    intros j Hj. rewrite (Hlook j Hj).
    destruct (uniform_draw v _ Hne (float_at_range g (Random.pos g + j)))
      as (i & Hi & Hlt & Hsh).
    exists i. split; [done|]. split; [done|]. split; [done|]. intros; done.
  - assert (Hs : 0 < Py.sum v) by (pose proof (sum_nonneg v Hv); lra).
    rewrite decide_True by (by rewrite accumulate_length, range_len_length).
    rewrite accumulate_last by done.
    destruct (Rle_dec (Py.sum v) 0) as [|_]; [lra|].
    destruct (replicate_draws
      (λ u, Py.range 0 (Py.len v) !!
              Py.bisect (Py.accumulate v) (u * Py.sum v)
                (length (Py.range 0 (Py.len v)) - 1)) k g)
      as (xs & Hrun & Hlen & Hlook).
    { intros u Hu. destruct (weighted_draw v u Hv Hs Hu) as (-> & _). eauto. }
    exists xs. split; [exact Hrun|]. split; [done|].
    intros j Hj. rewrite (Hlook j Hj).
    destruct (weighted_draw v _ Hv Hs (float_at_range g (Random.pos g + j)))
      as (Hi & Hlt & Hsh).
    eexists. split; [exact Hi|]. split; [done|]. split; [done|]. intros; done.
Qed.

Lemma draw_values_proportional (v : list R) (k : nat) (g : Random.rng) :
  v ≠ [] → Forall (λ w, 0 <= w) v →
  ∃ xs, draw_values v k g = Some (xs, skip k g) ∧ length xs = k ∧
    ∀ j, (j < k)%nat →
      ∃ z, xs !! j = Some z ∧
           proportional_draw v (float_at g (Random.pos g + j)) z.
Proof.
  intros Hne Hv.
  destruct (draw_values_spec v k g Hne Hv) as (xs & Hrun & Hlen & Hlook).
  exists xs. split; [done|]. split; [done|].
  intros j Hj. destruct (Hlook j Hj) as (i0 & Hi0 & Hlt & Hun & Hwe).
  set (u := float_at g (Random.pos g + j)) in *.
  exists (Z.of_nat i0). split; [done|]. split; [eauto|].
  intros i w Hw. split.
  - intros H0. specialize (Hun H0). split.
    + intros E. apply Nat2Z.inj in E. by subst.
    + intros Hi. by rewrite (uniform_share_unique _ _ _ _ Hun Hi).
  - intros Hs. specialize (Hwe ltac:(lra)).
    assert (Hiff : Z.of_nat i0 = Z.of_nat i ↔
                   prefix_sum v i <= u * Py.sum v < prefix_sum v i + w).
    { rewrite <- (prefix_sum_S v i w Hw). split.
      - intros E. apply Nat2Z.inj in E. by subst.
      - intros Hi. by rewrite (weighted_share_unique _ _ _ _ Hv Hwe Hi). }
    split; [done|]. intros -> Hsel. apply Hiff in Hsel. lra.
Qed.

(** ** Building an order and encoding it *)

Lemma getitem_in_range (l : list string) (z : Z) :
  in_range (Py.len l) z → Py.getitem l z = Some (value_at l z).
Proof.
  unfold in_range, Py.len. intros Hz. unfold Py.getitem, value_at.
  rewrite norm_index_nonneg by lia. simpl.
  destruct (lookup_lt_is_Some_2 l (Z.to_nat z)) as [x ->]; [lia|done].
Qed.

Lemma mod_in_range (z n : Z) : (0 < n)%Z → in_range n (z mod n).
Proof. intros H. unfold in_range. by apply Z.mod_pos_bound. Qed.

Lemma mapM_map {A B} (f : A → option B) (g : A → B) (l : list A) :
  Forall (λ x, f x = Some (g x)) l → mapM f l = Some (map g l).
Proof.
  induction 1 as [|x l Hx _ IH]; [done|]. simpl. rewrite Hx. simpl.
  rewrite IH. done.
Qed.

Lemma init_from_index (tops : list Z) (tea sugar ice : Z) :
  Order.init (Order.FromIndex tops tea sugar ice) = Some (order_at tops tea sugar ice).
Proof.
  unfold Order.init, order_at.
  rewrite (mapM_map _
    (λ t, value_at Order.topping_list (t mod Py.len Order.topping_list))).
  2:{ apply Forall_forall. intros t _. apply getitem_in_range.
      by apply mod_in_range. }
  simpl. rewrite !getitem_in_range by (by apply mod_in_range). done.
Qed.

Lemma order_at_in_range (tops : list Z) (tea sugar ice : Z) :
  Forall (in_range (Py.len Order.topping_list)) tops →
  in_range (Py.len Order.tea_types) tea →
  in_range 100 sugar →
  in_range (Py.len Order.ice_categories) ice →
  order_at tops tea sugar ice =
  Order.mk (map (value_at Order.topping_list) tops) (value_at Order.tea_types tea)
           sugar (value_at Order.ice_categories ice).
Proof.
  unfold in_range. intros Ht Ha Hs Hi. unfold order_at.
  rewrite !Z.mod_small by done. f_equal.
  apply map_ext_Forall. eapply Forall_impl; [exact Ht|].
  intros t Hr. simpl. by rewrite Z.mod_small.
Qed.

Lemma init_from_uniform (tops : list R) (tea sugar ice : R) :
  Forall (λ u, 0 <= u < 1) tops → 0 <= tea < 1 → 0 <= sugar < 1 → 0 <= ice < 1 →
  Order.init (Order.FromUniform tops tea sugar ice) =
  Some (order_at (map (λ u, Int_part (u * 10)) tops) (Int_part (tea * 8))
                 (Int_part (sugar * 100)) (Int_part (ice * 4))).
Proof.
  intros Ht Ha Hs Hi.
  destruct (int_unit tea 8 Ha ltac:(lia)) as [Ea Ra].
  destruct (int_unit sugar 100 Hs ltac:(lia)) as [Es Rs].
  destruct (int_unit ice 4 Hi ltac:(lia)) as [Ei Ri].
  rewrite order_at_in_range; [|..|done].
  - unfold Order.init.
    change (IZR (Py.len Order.topping_list)) with 10.
    change (IZR (Py.len Order.tea_types)) with 8.
    change (IZR (Py.len Order.ice_categories)) with 4.
    rewrite (mapM_map _ (λ u, value_at Order.topping_list (Int_part (u * 10)))).
    2:{ eapply Forall_impl; [exact Ht|]. intros u Hu. simpl.
        destruct (int_unit u 10 Hu ltac:(lia)) as [-> ?].
        by apply getitem_in_range. }
    simpl. rewrite Ea, Es, Ei.
    rewrite !getitem_in_range by done. simpl.
    by rewrite map_map.
  - apply Forall_map. eapply Forall_impl; [exact Ht|]. intros u Hu. simpl.
    by destruct (int_unit u 10 Hu ltac:(lia)) as [_ ?].
  - done.
  - done.
Qed.

Example init_from_index_example :
  Order.init (Order.FromIndex [0; 13]%Z 9 250 (-1)) =
  Some (Order.mk ["tapioca"; "red bean"] "milk tea" 50 "more").
Proof. reflexivity. Qed.

Example to_dict_example :
  Order.to_dict (Order.mk ["tapioca"; "red bean"] "milk tea" 50 "more") =
  Some (Order.mkdict [0; 3]%Z 1 50 3).
Proof. reflexivity. Qed.

Lemma index_lookup (l : list string) (i : nat) (x : string) :
  NoDup l → l !! i = Some x → Py.index l x = Some (Z.of_nat i).
Proof.
  intros Hnd. revert i. induction Hnd as [|y l Hy Hnd IH]; intros i Hi; [done|].
  destruct i as [|i]; simpl in *.
  - simplify_eq. by rewrite String.eqb_refl.
  - destruct (String.eqb_spec y x) as [->|_].
    + exfalso. apply Hy. by eapply list_elem_of_lookup_2.
    + rewrite (IH i Hi). simpl. f_equal. lia.
Qed.

Lemma index_value_at (l : list string) (z : Z) :
  NoDup l → in_range (Py.len l) z → Py.index l (value_at l z) = Some z.
Proof.
  unfold in_range, Py.len. intros Hnd Hz. unfold value_at.
  destruct (lookup_lt_is_Some_2 l (Z.to_nat z)) as [x Hx]; [lia|].
  rewrite Hx. simpl. rewrite (index_lookup l _ x Hnd Hx). f_equal. lia.
Qed.

Lemma domains_NoDup :
  NoDup Order.topping_list ∧ NoDup Order.tea_types ∧ NoDup Order.ice_categories.
Proof. repeat split; compute_done. Qed.

Lemma to_dict_values (tops : list Z) (tea sugar ice : Z) :
  Forall (in_range (Py.len Order.topping_list)) tops →
  in_range (Py.len Order.tea_types) tea →
  in_range (Py.len Order.ice_categories) ice →
  Order.to_dict
    (Order.mk (map (value_at Order.topping_list) tops) (value_at Order.tea_types tea)
              sugar (value_at Order.ice_categories ice))
  = Some (Order.mkdict tops tea sugar ice).
Proof.
  intros Ht Ha Hi. destruct domains_NoDup as (N1 & N2 & N3).
  unfold Order.to_dict.
  cbn [Order.toppings Order.tea_type Order.sugar_percentage Order.ice_category].
  assert (Hm : mapM (Py.index Order.topping_list)
                 (map (value_at Order.topping_list) tops) = Some tops).
  { apply mapM_Some. apply Forall2_fmap_l. apply Forall_Forall2_diag.
    eapply Forall_impl; [exact Ht|]. intros t Hr.
    exact (index_value_at _ _ N1 Hr). }
  rewrite Hm, (index_value_at _ _ N2 Ha), (index_value_at _ _ N3 Hi). done.
Qed.

Lemma to_dict_order_at (tops : list Z) (tea sugar ice : Z) :
  Order.to_dict (order_at tops tea sugar ice) =
  Some (Order.mkdict (map (λ t, t mod Py.len Order.topping_list)%Z tops)
                     (tea mod Py.len Order.tea_types)%Z (sugar mod 100)%Z
                     (ice mod Py.len Order.ice_categories)%Z).
Proof.
  unfold order_at.
  rewrite <- (map_map (λ t, t mod Py.len Order.topping_list)%Z
                      (value_at Order.topping_list)).
  apply to_dict_values.
  - apply Forall_map, Forall_forall. intros t _. by apply mod_in_range.
  - by apply mod_in_range.
  - by apply mod_in_range.
Qed.

(** Encoding an order built from indices and building it again gives the
    same order. *)
Lemma index_round_trip (tops : list Z) (tea sugar ice : Z) (o : Order.t) (d : Order.dict) :
  Order.init (Order.FromIndex tops tea sugar ice) = Some o →
  Order.to_dict o = Some d →
  Order.init (Order.FromIndex (Order.d_toppings d) (Order.d_tea_type d)
                (Order.d_sugar_percentage d) (Order.d_ice_category d)) = Some o.
Proof.
  rewrite init_from_index. intros [= <-]. rewrite to_dict_order_at. intros [= <-].
  cbn [Order.d_toppings Order.d_tea_type Order.d_sugar_percentage
       Order.d_ice_category].
  rewrite init_from_index. f_equal. unfold order_at.
  rewrite map_map. rewrite !Z.mod_mod by done. f_equal.
  apply map_ext. intros t. by rewrite Z.mod_mod.
Qed.

Lemma uniform_round_trip (tops : list R) (tea sugar ice : R) (o : Order.t) (d : Order.dict) :
  Forall (λ u, 0 <= u < 1) tops → 0 <= tea < 1 → 0 <= sugar < 1 → 0 <= ice < 1 →
  Order.init (Order.FromUniform tops tea sugar ice) = Some o →
  Order.to_dict o = Some d →
  Order.init (Order.FromIndex (Order.d_toppings d) (Order.d_tea_type d)
                (Order.d_sugar_percentage d) (Order.d_ice_category d)) = Some o.
Proof.
  intros Ht Ha Hs Hi. rewrite init_from_uniform by done.
  rewrite <- init_from_index. apply index_round_trip.
Qed.

Lemma decode_in_range (d : Order.dict) :
  dict_in_range d →
  order_at (Order.d_toppings d) (Order.d_tea_type d) (Order.d_sugar_percentage d)
           (Order.d_ice_category d) = decode d ∧
  Order.to_dict (decode d) = Some d.
Proof.
  intros (Ht & Ha & Hs & Hi). split.
  - by apply order_at_in_range.
  - destruct d. by apply to_dict_values.
Qed.

(** C6, at the upper end of the documented range of [from_uniform=True]:
    the fraction 1.0 is mapped to index 8 of the eight tea types, to index
    10 of the ten toppings and to index 4 of the four ice categories, and
    each of these accesses raises. *)
Theorem init_uniform_one_raises :
  Order.init (Order.FromUniform [] 1 0 0) = None ∧
  Order.init (Order.FromUniform [1] 0 0 0) = None ∧
  Order.init (Order.FromUniform [] 0 0 1) = None.
Proof.
  assert (H8 : Py.int (1 * 8) = 8%Z) by (apply int_value; [lia|lra]).
  assert (H10 : Py.int (1 * 10) = 10%Z) by (apply int_value; [lia|lra]).
  assert (H4 : Py.int (1 * 4) = 4%Z) by (apply int_value; [lia|lra]).
  assert (H0 : Py.int (0 * 8) = 0%Z) by (apply int_value; [lia|lra]).
  unfold Order.init.
  change (IZR (Py.len Order.topping_list)) with 10.
  change (IZR (Py.len Order.tea_types)) with 8.
  change (IZR (Py.len Order.ice_categories)) with 4.
  cbn [mapM mbind option_bind mret option_ret].
  rewrite H8, H10, H4, H0.
  repeat split; reflexivity.
Qed.

(** C8, at the same end of the range: the sugar fraction 1.0 gives an order
    with 100 percent sugar; its dictionary keeps 100, and the order built
    again from the dictionary has 0 percent. *)
Theorem uniform_sugar_one_round_trip :
  ∃ o d o',
    Order.init (Order.FromUniform [] 0 1 0) = Some o ∧
    Order.to_dict o = Some d ∧
    Order.init (Order.FromIndex (Order.d_toppings d) (Order.d_tea_type d)
                  (Order.d_sugar_percentage d) (Order.d_ice_category d)) = Some o' ∧
    Order.sugar_percentage o = 100%Z ∧ Order.sugar_percentage o' = 0%Z ∧ o' ≠ o.
Proof.
  exists (Order.mk [] "classic" 100 "no"), (Order.mkdict [] 0 100 0),
         (Order.mk [] "classic" 0 "no").
  split; [|split; [|split; [|split; [|split]]]]; try reflexivity.
  - unfold Order.init.
    change (IZR (Py.len Order.tea_types)) with 8.
    change (IZR (Py.len Order.ice_categories)) with 4.
    rewrite (int_value (0 * 8) 0) by (lia || lra).
    rewrite (int_value (0 * 4) 0) by (lia || lra).
    rewrite (int_value (1 * 100) 100) by (lia || lra).
    reflexivity.
  - discriminate.
Qed.

(** ** The first order *)

Lemma first_below_lt (n k : nat) (ws : list nat) :
  (0 < n)%nat → (Random.first_below n k ws < n)%nat.
Proof.
  intros Hn. induction ws as [|w ws IH]; simpl; [done|].
  destruct (Random.getrandbits k w <? n)%nat eqn:E; [|done].
  by apply Nat.ltb_lt.
Qed.

Lemma first_below_accepts (n k : nat) (rejected : list nat) (w : nat)
    (rest : list nat) :
  Forall (λ x, (n <= Random.getrandbits k x)%nat) rejected →
  (Random.getrandbits k w < n)%nat →
  Random.first_below n k (rejected ++ w :: rest) = Random.getrandbits k w.
Proof.
  intros Hrej Hw. induction Hrej as [|x l Hx _ IH]; simpl.
  - by rewrite (proj2 (Nat.ltb_lt _ _) Hw).
  - by rewrite (proj2 (Nat.ltb_ge _ _) Hx).
Qed.

Lemma first_below_redraws : Random.first_below 3 2 [3; 7; 1; 0]%nat = 1%nat.
Proof. reflexivity. Qed.

Lemma randbelow_run (n : nat) (g : Random.rng) :
  Random.randbelow n g =
  Some (Random.first_below n (Random.bit_length n) (words_at g (Random.pos g)),
        skip 1 g).
Proof. unfold Random.randbelow, Random.next. by rewrite advance_skip. Qed.

Lemma count_run (g : Random.rng) :
  Random.choice (Py.range 1 4) g = Some (Z.of_nat (first_count g), skip 1 g).
Proof.
  unfold Random.choice. rewrite (bind_run _ _ _ _ _ (randbelow_run _ g)).
  apply lift_run. change (length (Py.range 1 4)) with 3%nat.
  change (Random.bit_length 3) with 2%nat.
  pose proof (first_below_lt 3 2 (words_at g (Random.pos g)) ltac:(lia)) as H.
  rewrite range_lookup by lia. f_equal. unfold first_count. lia.
Qed.

Lemma first_count_range (g : Random.rng) : (1 <= first_count g <= 3)%nat.
Proof.
  unfold first_count.
  pose proof (first_below_lt 3 2 (words_at g (Random.pos g)) ltac:(lia)) as H.
  lia.
Qed.

Lemma uniform_draw_value {A} (v : list A) (u : R) :
  v ≠ [] → 0 <= u < 1 →
  Py.getitem (Py.range 0 (Py.len v))
    (Int_part (u * INR (length (Py.range 0 (Py.len v)))))
  = Some (Int_part (u * IZR (Py.len v))) ∧
  in_range (Py.len v) (Int_part (u * IZR (Py.len v))).
Proof.
  intros Hv Hu. rewrite range_len_length, INR_IZR_INZ. fold (Py.len v).
  assert (Hn : (0 < Py.len v)%Z) by (destruct v; [done|unfold Py.len; simpl; lia]).
  destruct (int_unit u _ Hu Hn) as [_ Hz]. split; [|done].
  unfold Py.getitem. rewrite range_len_length.
  set (z := Int_part (u * IZR (Py.len v))) in *. unfold Py.len in Hz.
  rewrite norm_index_nonneg by lia. simpl.
  rewrite range_lookup by (unfold Py.len; lia). f_equal. lia.
Qed.

Lemma uniform_draws {A} (v : list A) (k : nat) (g : Random.rng) :
  v ≠ [] →
  Random.choices (Py.range 0 (Py.len v)) None k g =
  Some (map (λ j, Int_part (float_at g (Random.pos g + j) * IZR (Py.len v))) (seq 0 k),
        skip k g).
Proof.
  intros Hv. unfold Random.choices, Random.choose_uniform.
  destruct (replicate_draws
    (λ u, Py.getitem (Py.range 0 (Py.len v))
            (Int_part (u * INR (length (Py.range 0 (Py.len v)))))) k g)
    as (xs & Hrun & Hlen & Hlook).
  { intros u Hu. destruct (uniform_draw_value v u Hv Hu) as [-> _]. eauto. }
  rewrite Hrun. do 2 f_equal. apply list_eq. intros j.
  destruct (decide (j < k)%nat) as [Hj|Hj].
  - rewrite (Hlook j Hj), list_lookup_fmap, lookup_seq_lt by done. simpl.
    by destruct (uniform_draw_value v _ Hv (float_at_range g (Random.pos g + j)))
      as [-> _].
  - rewrite !lookup_ge_None_2; [done| |lia].
    rewrite length_map, length_seq. lia.
Qed.

Lemma generate_first_run (g : Random.rng) :
  let d := first_dict g in
  Order.generate_first g =
  Some (Order.FromUniform (map (λ t, IZR t / 10) (Order.d_toppings d))
          (float_at g (Random.pos g + 1 + first_count g))
          (float_at g (Random.pos g + 2 + first_count g))
          (float_at g (Random.pos g + 3 + first_count g)),
        skip (first_count g + 4) g).
Proof.
  intros d. unfold Order.generate_first.
  rewrite (mbind_run _ _ _ _ _ (count_run g)). rewrite Nat2Z.id.
  rewrite (mbind_run _ _ _ _ _
    (uniform_draws Order.topping_list (first_count g) (skip 1 g) ltac:(done))).
  rewrite (mbind_run _ _ _ _ _ (random_run _)).
  rewrite (mbind_run _ _ _ _ _ (random_run _)).
  rewrite (mbind_run _ _ _ _ _ (random_run _)).
  unfold Random.ret. rewrite !skip_skip.
  change (IZR (Py.len Order.topping_list)) with 10.
  unfold d, first_dict. clear d. generalize (first_count g). intros k.
  unfold float_at, skip. cbn [Random.pos Random.stream Order.d_toppings].
  replace (Random.pos g + (1 + k))%nat with (Random.pos g + 1 + k)%nat by lia.
  replace (Random.pos g + (1 + k + 1))%nat with (Random.pos g + 2 + k)%nat by lia.
  replace (Random.pos g + (1 + k + 1 + 1))%nat with (Random.pos g + 3 + k)%nat by lia.
  replace (1 + k + 1 + 1 + 1)%nat with (k + 4)%nat by lia.
  done.
Qed.

Lemma first_dict_in_range (g : Random.rng) : dict_in_range (first_dict g).
Proof.
  unfold dict_in_range, first_dict, in_range.
  cbn [Order.d_toppings Order.d_tea_type Order.d_sugar_percentage Order.d_ice_category].
  split; [|split; [|split]].
  - apply Forall_map, Forall_forall. intros j _. simpl.
    by destruct (int_unit _ 10 (float_at_range g (Random.pos g + 1 + j)) ltac:(lia)).
  - by destruct (int_unit _ 8 (float_at_range g (Random.pos g + 1 + first_count g))
                   ltac:(lia)).
  - by destruct (int_unit _ 100 (float_at_range g (Random.pos g + 2 + first_count g))
                   ltac:(lia)).
  - by destruct (int_unit _ 4 (float_at_range g (Random.pos g + 3 + first_count g))
                   ltac:(lia)).
Qed.

Lemma tenth_unit (t : Z) : in_range 10 t → 0 <= IZR t / 10 < 1.
Proof.
  intros [H0 H10]. apply IZR_le in H0. apply IZR_lt in H10. lra.
Qed.

Lemma tenth_index (t : Z) : Int_part (IZR t / 10 * 10) = t.
Proof. replace (IZR t / 10 * 10) with (IZR t) by lra. apply Int_part_IZR. Qed.

Lemma tenth_indices (l : list Z) :
  map (λ u, Int_part (u * 10)) (map (λ t, IZR t / 10) l) = l.
Proof.
  induction l as [|t l IH]; [done|]. simpl. by rewrite tenth_index, IH.
Qed.

Lemma first_order_run (today : Z) (g : Random.rng) :
  new_order today [] g =
  Some ((decode (first_dict g), [mkrecord (first_dict g) today]),
        skip (first_count g + 4) g).
Proof.
  pose proof (first_dict_in_range g) as Hd.
  destruct (decode_in_range _ Hd) as [Ho Hdict].
  assert (Hinit : Order.init
      (Order.FromUniform (map (λ t, IZR t / 10) (Order.d_toppings (first_dict g)))
         (float_at g (Random.pos g + 1 + first_count g))
         (float_at g (Random.pos g + 2 + first_count g))
         (float_at g (Random.pos g + 3 + first_count g)))
      = Some (decode (first_dict g))).
  { rewrite init_from_uniform.
    - rewrite tenth_indices, <- Ho. reflexivity.
    - apply Forall_map. destruct Hd as [Ht _].
      eapply Forall_impl; [exact Ht|]. intros t. apply tenth_unit.
    - apply float_at_range.
    - apply float_at_range.
    - apply float_at_range. }
  unfold new_order. rewrite decide_True by done.
  rewrite (mbind_run _ _ _ _ _ (generate_first_run g)).
  rewrite (mbind_run _ _ _ _ _ (lift_run _ _ _ Hinit)).
  rewrite (mbind_run _ _ _ _ _ (lift_run _ _ _ Hdict)).
  done.
Qed.

Lemma decode_toppings_length (d : Order.dict) :
  length (Order.toppings (decode d)) = length (Order.d_toppings d).
Proof. unfold decode. simpl. by rewrite length_map. Qed.

Lemma Int_part_iff (x : R) (i : nat) :
  Int_part x = Z.of_nat i ↔ INR i <= x < INR i + 1.
Proof.
  rewrite INR_IZR_INZ. split.
  - intros <-. destruct (base_Int_part x). lra.
  - intros H. symmetry. apply Int_part_spec. lra.
Qed.

Lemma first_toppings_run (today : Z) (g : Random.rng) :
  first_toppings today g = first_count g.
Proof.
  unfold first_toppings. rewrite first_order_run, decode_toppings_length.
  unfold first_dict. cbn [Order.d_toppings]. by rewrite length_map, length_seq.
Qed.

Lemma first_count_with_words (ws : list nat) (g : Random.rng) :
  first_count (with_words ws g) = S (Random.first_below 3 2 ws).
Proof.
  unfold first_count, words_at, with_words.
  cbn [Random.pos Random.stream]. by rewrite decide_True.
Qed.

Lemma word_lists_length (m : nat) : length (word_lists m) = (4 ^ m)%nat.
Proof.
  induction m as [|m IH]; [done|].
  cbn [word_lists]. rewrite !length_app, !length_map, IH, Nat.pow_succ_r'. lia.
Qed.

Lemma filter_cons_length (f : list nat → bool) (w : nat) (l : list (list nat)) :
  length (List.filter f (map (cons w) l)) =
  length (List.filter (λ ws, f (w :: ws)) l).
Proof.
  induction l as [|ws l IH]; [done|]. cbn [map List.filter].
  destruct (f (w :: ws)); cbn [length]; by rewrite IH.
Qed.

Lemma filter_const_length {A} (b : bool) (l : list A) :
  length (List.filter (λ _, b) l) = if b then length l else 0%nat.
Proof.
  induction l as [|x l IH]; [by destruct b|].
  cbn [List.filter]. destruct b; cbn [length]; [by rewrite IH|done].
Qed.

Lemma accepted_count (m c : nat) :
  (1 <= c <= 3)%nat →
  (3 * length (List.filter
         (λ ws, returns_within ws && (S (Random.first_below 3 2 ws) =? c)%nat)
         (word_lists m)) = 4 ^ m - 1)%nat.
Proof.
  intros Hc. induction m as [|m IH].
  - cbn [word_lists List.filter returns_within existsb andb length].
    change (4 ^ 0)%nat with 1%nat. lia.
  - cbn [word_lists]. rewrite !List.filter_app, !length_app, !filter_cons_length.
    rewrite (List.filter_ext _ (λ _, (1 =? c)%nat)) by done.
    rewrite (List.filter_ext
      (λ ws, returns_within (1%nat :: ws) && _) (λ _, (2 =? c)%nat)) by done.
    rewrite (List.filter_ext
      (λ ws, returns_within (2%nat :: ws) && _) (λ _, (3 =? c)%nat)) by done.
    rewrite (List.filter_ext
      (λ ws, returns_within (3%nat :: ws) && _)
      (λ ws, returns_within ws && (S (Random.first_below 3 2 ws) =? c)%nat))
      by done.
    rewrite !filter_const_length, word_lists_length, Nat.pow_succ_r'.
    assert (1 <= 4 ^ m)%nat by (apply Nat.neq_0_lt_0, Nat.pow_nonzero; lia).
    remember (length (List.filter _ (word_lists m))) as N eqn:HN. clear HN.
    destruct c as [|[|[|[|c]]]]; cbn [Nat.eqb]; lia.
Qed.

Lemma runs_with_count_accepted (today : Z) (g : Random.rng) (m c : nat) :
  runs_with_count today g m c =
  length (List.filter
    (λ ws, returns_within ws && (S (Random.first_below 3 2 ws) =? c)%nat)
    (word_lists m)).
Proof.
  unfold runs_with_count. f_equal. apply List.filter_ext. intros ws.
  by rewrite first_toppings_run, first_count_with_words.
Qed.

(** C7: with an empty history [new_order] leaves the weights aside and
    always returns an order that is a function of the draws alone.  The
    topping count is drawn by [random.choice(range(1, 4))]:
    [_randbelow(3)] reads two-bit words, draws again while the word is 3
    and returns the first word [r] below 3, and the count is [r + 1],
    whatever was rejected before.  The count is uniform on {1, 2, 3}: of
    the [4 ^ m] lists of [m] two-bit words, all but the list of rejected
    words make the draw return, and a third of these, [(4 ^ m - 1) / 3],
    gives the first order [c] toppings, for each [c] of 1, 2 and 3.  Each
    topping, the tea type and the ice category is the one value at index
    [floor(u * n)] of its domain of [n] values, [u] being a uniform float
    of its own: value [i] exactly for [u] in [i/n, (i+1)/n).  The sugar
    percentage is [floor(u * 100)], an integer in [0, 100). *)
Theorem first_order_uniform (today : Z) (g : Random.rng) :
  let p := Random.pos g in
  let k := first_count g in
  let d := first_dict g in
  new_order today [] g =
    Some ((decode d, [mkrecord d today]), skip (k + 4) g) ∧
  (1 <= k <= 3)%nat ∧
  (∀ rejected w rest,
     words_at g p = rejected ++ w :: rest →
     Forall (λ x, (3 <= Random.getrandbits 2 x)%nat) rejected →
     (Random.getrandbits 2 w < 3)%nat →
     k = S (Random.getrandbits 2 w)) ∧
  (∀ m c, (1 <= c <= 3)%nat →
     length (word_lists m) = (4 ^ m)%nat ∧
     (3 * runs_with_count today g m c = 4 ^ m - 1)%nat) ∧
  length (Order.toppings (decode d)) = k ∧
  length (Order.d_toppings d) = k ∧
  dict_in_range d ∧
  (∀ j, (j < k)%nat →
     ∃ t, Order.d_toppings d !! j = Some t ∧
          ∀ i, t = Z.of_nat i ↔
               INR i <= float_at g (p + 1 + j) * 10 < INR i + 1) ∧
  (∀ i, Order.d_tea_type d = Z.of_nat i ↔
        INR i <= float_at g (p + 1 + k) * 8 < INR i + 1) ∧
  (∀ i, Order.d_sugar_percentage d = Z.of_nat i ↔
        INR i <= float_at g (p + 2 + k) * 100 < INR i + 1) ∧
  (∀ i, Order.d_ice_category d = Z.of_nat i ↔
        INR i <= float_at g (p + 3 + k) * 4 < INR i + 1).
Proof.
  intros p k d.
  assert (Hlen : length (Order.d_toppings d) = k).
  { unfold d, first_dict. cbn [Order.d_toppings].
    by rewrite length_map, length_seq. }
  split; [apply first_order_run|]. split; [apply first_count_range|].
  split.
  { intros rejected w rest Hw Hrej Hacc. unfold k, first_count. fold p.
    rewrite Hw. f_equal. by apply first_below_accepts. }
  split.
  { intros m c Hc. split; [apply word_lists_length|].
    rewrite runs_with_count_accepted. by apply accepted_count. }
  split; [by rewrite decode_toppings_length|]. split; [done|].
  split; [apply first_dict_in_range|].
  split; [|split; [|split]].
  - intros j Hj. eexists. split.
    + unfold d, first_dict. cbn [Order.d_toppings]. fold p k.
      rewrite list_lookup_fmap, lookup_seq_lt by done. reflexivity.
    + intros i. apply Int_part_iff.
  - intros i. apply Int_part_iff.
  - intros i. apply Int_part_iff.
  - intros i. apply Int_part_iff.
Qed.

Lemma Int_part_half_10 : Int_part (1 / 2 * 10) = 5%Z.
Proof. symmetry. apply Int_part_spec. lra. Qed.

(** C5, on the first run: when the count draw gives two toppings and the
    two topping draws coincide, the order holds the same topping twice. *)
Theorem first_order_repeats_topping :
  ∃ o h g', new_order 0 [] (constant_rng half 1) = Some ((o, h), g') ∧
    Order.toppings o = ["herbal jelly"; "herbal jelly"]%string ∧
    ¬ NoDup (Order.toppings o).
Proof.
  eexists _, _, _. split; [apply first_order_run|].
  assert (E : Order.toppings (decode (first_dict (constant_rng half 1))) =
              ["herbal jelly"; "herbal jelly"]%string).
  { unfold decode, first_dict. cbn [Order.toppings Order.d_toppings].
    change (first_count (constant_rng half 1)) with 2%nat. cbn [seq map].
    change (float_at (constant_rng half 1) _) with (1 / 2).
    rewrite Int_part_half_10. reflexivity. }
  split; [exact E|]. rewrite E. intros H. apply NoDup_cons in H as [H _].
  apply H. left.
Qed.

(** ** Deduplication *)

Lemma list_set_elem_of (l : list Z) (x : Z) : x ∈ Py.list_set l ↔ x ∈ l.
Proof.
  induction l as [|y l IH]; simpl; [done|].
  rewrite !elem_of_cons, list_elem_of_filter, IH.
  destruct (decide (x = y)); tauto.
Qed.

Lemma list_set_NoDup (l : list Z) : NoDup (Py.list_set l).
Proof.
  induction l as [|y l IH]; simpl; [constructor|].
  apply NoDup_cons. split.
  - rewrite list_elem_of_filter. intros [H _]. by apply H.
  - by apply NoDup_filter.
Qed.

Lemma list_set_length (l : list Z) :
  (length (Py.list_set l) <= length l)%nat ∧
  (l ≠ [] → 1 <= length (Py.list_set l))%nat.
Proof.
  induction l as [|y l [IH _]]; simpl; [done|]. split; [|lia].
  pose proof (length_filter (λ z, z ≠ y) (Py.list_set l)). lia.
Qed.

Lemma list_set_Forall (P : Z → Prop) (l : list Z) :
  Forall P l → Forall P (Py.list_set l).
Proof.
  rewrite !Forall_forall. intros H x Hx. apply H. by apply list_set_elem_of.
Qed.

Lemma value_at_inj (l : list string) (z z' : Z) :
  NoDup l → in_range (Py.len l) z → in_range (Py.len l) z' →
  value_at l z = value_at l z' → z = z'.
Proof.
  intros Hnd Hz Hz' E.
  pose proof (index_value_at l z Hnd Hz) as H.
  rewrite E, (index_value_at l z' Hnd Hz') in H. by simplify_eq.
Qed.

Lemma decode_toppings_NoDup (d : Order.dict) :
  dict_in_range d → NoDup (Order.d_toppings d) → NoDup (Order.toppings (decode d)).
Proof.
  intros (Ht & _) Hnd. unfold decode. cbn [Order.toppings].
  apply NoDup_fmap_2_strong; [|done].
  intros z z' Hz Hz' E. rewrite Forall_forall in Ht.
  destruct domains_NoDup as (N1 & _).
  eapply value_at_inj; [exact N1|by apply Ht|by apply Ht|done].
Qed.

Example list_set_repeated : Py.list_set [5; 5; 2; 5]%Z = [5; 2]%Z.
Proof. reflexivity. Qed.

(** ** The next order *)

Lemma drawn_in_range (v : list R) (k : nat) (g : Random.rng) (n : nat) :
  length v = n → (0 < n)%nat → Forall (λ w, 0 <= w) v →
  ∃ xs, draw_values v k g = Some (xs, skip k g) ∧ length xs = k ∧
        Forall (in_range (Z.of_nat n)) xs.
Proof.
  intros Hn Hpos Hv.
  destruct (draw_values_spec v k g) as (xs & Hrun & Hlen & Hlook); [|done|].
  { destruct v; [simpl in Hn; lia|done]. }
  exists xs. split; [done|]. split; [done|].
  apply Forall_lookup_2. intros j z Hz.
  destruct (Hlook j) as (i & Hi & Hlt & _).
  { rewrite <- Hlen. by eapply lookup_lt_Some. }
  rewrite Hi in Hz. simplify_eq. unfold in_range. lia.
Qed.

Lemma single_draw (xs : list Z) (n : Z) :
  length xs = 1%nat → Forall (in_range n) xs →
  ∃ z, Py.getitem xs 0 = Some z ∧ in_range n z.
Proof.
  intros Hlen Hr. destruct xs as [|z [|??]]; simplify_eq/=.
  exists z. split; [done|]. by inversion Hr.
Qed.

Lemma select_args_run (nf : factors) (g : Random.rng) :
  factors_ok nf →
  ∃ d g', select_args nf g =
            Some (Order.FromIndex (Order.d_toppings d) (Order.d_tea_type d)
                    (Order.d_sugar_percentage d) (Order.d_ice_category d), g') ∧
          dict_in_range d ∧ NoDup (Order.d_toppings d) ∧
          (1 <= length (Order.d_toppings d) <= first_count (skip 1 g))%nat ∧
          ∃ tops, draw_values (f_toppings nf) (first_count (skip 1 g)) (skip 2 g)
                    = Some (tops, skip (first_count (skip 1 g)) (skip 2 g)) ∧
                  Order.d_toppings d = Py.list_set tops.
Proof.
  intros ((L1 & P1) & (L2 & P2) & (L3 & P3)).
  set (k := first_count (skip 1 g)).
  destruct (drawn_in_range _ k (skip 2 g) 10 L1 ltac:(lia) P1)
    as (tops & Ht & Htl & Htr).
  destruct (drawn_in_range _ 1 (skip (2 + k) g) 8 L2 ltac:(lia) P2)
    as (teas & Ha & Hal & Har).
  destruct (single_draw teas _ Hal Har) as (tea & Htea & Hta).
  destruct (drawn_in_range _ 1 (skip (2 + k + 1) g) 4 L3 ltac:(lia) P3)
    as (ices & Hi & Hil & Hir).
  destruct (single_draw ices _ Hil Hir) as (ice & Hice & Hic).
  destruct (int_unit _ 100 (float_at_range g (Random.pos g)) ltac:(lia))
    as [Es Hs].
  exists (Order.mkdict (Py.list_set tops) tea
            (Int_part (float_at g (Random.pos g) * 100)) ice).
  eexists. split; [|split; [|split; [|split]]].
  - unfold select_args.
    rewrite (mbind_run _ _ _ _ _ (random_run g)).
    rewrite (mbind_run _ _ _ _ _ (count_run (skip 1 g))).
    rewrite Nat2Z.id, skip_skip. change (1 + 1)%nat with 2%nat. fold k.
    rewrite (mbind_run _ _ _ _ _ Ht), skip_skip.
    rewrite (mbind_run _ _ _ _ _ Ha), skip_skip.
    rewrite (mbind_run _ _ _ _ _ (lift_run _ _ _ Htea)).
    rewrite (mbind_run _ _ _ _ _ Hi).
    rewrite (mbind_run _ _ _ _ _ (lift_run _ _ _ Hice)).
    change (IZR 100) with 100 in Es. rewrite Es. reflexivity.
  - split; [by apply list_set_Forall|]. done.
  - apply list_set_NoDup.
  - cbn [Order.d_toppings]. destruct (list_set_length tops) as [Hle Hge].
    pose proof (first_count_range (skip 1 g)). fold k in H.
    split; [apply Hge; destruct tops; [simpl in Htl; lia|done] | lia].
  - exists tops. done.
Qed.

Lemma novelty_factors_ok (today : Z) (h : list record) (nf : factors) :
  novelty_factors today h = Some nf → factors_ok nf.
Proof.
  intros H.
  destruct (novelty_factors_lookup _ _ _ H) as ((L1 & L2 & L3) & _ & F1 & F2 & F3).
  assert (U : ∀ v n s, length v = n →
    (∀ j, (j < n)%nat → v !! j = Some (Py.max0 (1 - s j))) →
    Forall (λ w, 0 <= w) v).
  { intros v n s L F. apply Forall_lookup_2. intros j w Hw.
    rewrite F in Hw by (rewrite <- L; by eapply lookup_lt_Some).
    simplify_eq. apply max0_nonneg. }
  split; [|split]; (split; [done|]).
  - exact (U _ _ _ L1 F1).
  - exact (U _ _ _ L2 F2).
  - exact (U _ _ _ L3 F3).
Qed.

Lemma next_order_run (today : Z) (h : list record) (g : Random.rng) :
  h ≠ [] → Forall (valid_record today) h →
  ∃ d g', new_order today h g = Some ((decode d, h ++ [mkrecord d today]), g') ∧
          dict_in_range d ∧ NoDup (Order.d_toppings d) ∧
          (1 <= length (Order.d_toppings d) <= first_count (skip 1 g))%nat ∧
          ∃ nf tops, factors_ok nf ∧
            draw_values (f_toppings nf) (first_count (skip 1 g)) (skip 2 g)
              = Some (tops, skip (first_count (skip 1 g)) (skip 2 g)) ∧
            Order.d_toppings d = Py.list_set tops.
Proof.
  intros Hne Hv.
  destruct (novelty_factors_valid today h Hv) as [nf Hnf].
  pose proof (novelty_factors_ok _ _ _ Hnf) as Hok.
  destruct (select_args_run nf g Hok)
    as (d & g' & Hsel & Hd & Hnd & Hlen & tops & Htops & Hset).
  destruct (decode_in_range d Hd) as [Ho Hdict].
  exists d, g'. split; [|split; [done|split; [done|split; [done|eauto]]]].
  unfold new_order. rewrite decide_False by (by destruct h).
  rewrite (mbind_run _ _ _ _ _ (lift_run _ _ _ Hnf)).
  rewrite (mbind_run _ _ _ _ _ Hsel).
  rewrite init_from_index, Ho.
  rewrite (mbind_run _ _ _ _ _ (lift_run _ _ _ eq_refl)).
  rewrite (mbind_run _ _ _ _ _ (lift_run _ _ _ Hdict)).
  done.
Qed.

Lemma scenario_history_valid : Forall (valid_record 0) scenario_history.
Proof.
  constructor; [|constructor]. unfold valid_record, valid_index. simpl.
  split; [lia|]. split; [|lia]. constructor; [lia|constructor].
Qed.

(** C9: on a history of valid records [new_order] returns, and the history
    it writes back is the one it read followed by one record: the
    dictionary of the order it generated, dated today. *)
Theorem new_order_appends (today : Z) (h : list record) (g : Random.rng) :
  Forall (valid_record today) h →
  ∃ o d g', new_order today h g = Some ((o, h ++ [mkrecord d today]), g') ∧
    Order.to_dict o = Some d ∧
    length (h ++ [mkrecord d today]) = S (length h) ∧
    ∀ i r, h !! i = Some r → (h ++ [mkrecord d today]) !! i = Some r.
Proof.
  intros Hv.
  assert (∃ d g', new_order today h g
            = Some ((decode d, h ++ [mkrecord d today]), g') ∧ dict_in_range d)
    as (d & g' & Hrun & Hd).
  { destruct h as [|r h'].
    - eexists _, _. split; [apply first_order_run|apply first_dict_in_range].
    - destruct (next_order_run today (r :: h') g) as (d & g' & ? & ? & _); eauto. }
  exists (decode d), d, g'. split; [done|].
  split; [by apply decode_in_range|]. split.
  - rewrite length_app. simpl. lia.
  - intros i r Hi. by apply lookup_app_l_Some.
Qed.

Lemma new_order_appends_witness :
  ∃ o d g', new_order 0 scenario_history (constant_rng half 1)
              = Some ((o, scenario_history ++ [mkrecord d 0]), g') ∧
            Order.to_dict o = Some d.
Proof.
  destruct (new_order_appends 0 scenario_history (constant_rng half 1)
              scenario_history_valid) as (o & d & g' & Hrun & Hd & _).
  exists o, d, g'. split; [exact Hrun | exact Hd].
Defined.

(** C10: with a non-empty history of valid records, the toppings of the
    generated order are distinct and there are between 1 and [k] of them,
    [k] being the count drawn from {1, 2, 3}. *)
Theorem weighted_topping_count (today : Z) (h : list record) (g : Random.rng) :
  h ≠ [] → Forall (valid_record today) h →
  ∃ o h' g', new_order today h g = Some ((o, h'), g') ∧
    NoDup (Order.toppings o) ∧
    (1 <= length (Order.toppings o) <= first_count (skip 1 g))%nat ∧
    (first_count (skip 1 g) <= 3)%nat.
Proof.
  intros Hne Hv.
  destruct (next_order_run today h g Hne Hv)
    as (d & g' & Hrun & Hd & Hnd & Hlen & _).
  exists (decode d), (h ++ [mkrecord d today]), g'. split; [done|].
  split; [by apply decode_toppings_NoDup|].
  rewrite decode_toppings_length. split; [done|].
  apply first_count_range.
Qed.

Lemma weighted_topping_count_witness :
  ∃ o h' g', new_order 0 scenario_history (constant_rng half 1) = Some ((o, h'), g') ∧
    NoDup (Order.toppings o) ∧ (1 <= length (Order.toppings o) <= 2)%nat.
Proof.
  assert (Hne : scenario_history ≠ []) by discriminate.
  destruct (weighted_topping_count 0 scenario_history (constant_rng half 1)
              Hne scenario_history_valid) as (o & h' & g' & Hrun & Hnd & Hlen & _).
  exists o, h', g'. split; [exact Hrun|]. split; [exact Hnd | exact Hlen].
Defined.

(** Two draws from the same float give the same value. *)
Lemma repeated_draw (v : list R) (g : Random.rng) (xs : list Z) (g' : Random.rng) :
  v ≠ [] → Forall (λ w, 0 <= w) v →
  float_at g (Random.pos g + 1) = float_at g (Random.pos g + 0) →
  draw_values v 2 g = Some (xs, g') →
  ∃ z, xs = [z; z].
Proof.
  intros Hne Hv Hu Hrun.
  destruct (draw_values_spec v 2 g Hne Hv) as (xs' & Hrun' & Hlen & Hlook).
  rewrite Hrun in Hrun'. simplify_eq.
  destruct (Hlook 0%nat ltac:(lia)) as (i0 & H0 & _ & U0 & W0).
  destruct (Hlook 1%nat ltac:(lia)) as (i1 & H1 & _ & U1 & W1).
  rewrite Hu in U1, W1.
  assert (i1 = i0) as ->.
  { destruct (Req_dec_T (Py.sum v) 0) as [E|E].
    - exact (uniform_share_unique _ _ _ _ (U1 E) (U0 E)).
    - exact (weighted_share_unique _ _ _ _ Hv (W1 E) (W0 E)). }
  exists (Z.of_nat i0).
  destruct xs' as [|a [|b [|??]]]; simplify_eq/=. done.
Qed.

(** A run in which deduplication leaves fewer toppings than were drawn:
    the count is 2 and the two topping draws coincide. *)
Lemma weighted_topping_count_below :
  ∃ o h' g', new_order 0 scenario_history (constant_rng half 1) = Some ((o, h'), g') ∧
    first_count (skip 1 (constant_rng half 1)) = 2%nat ∧
    length (Order.toppings o) = 1%nat.
Proof.
  destruct (next_order_run 0 scenario_history (constant_rng half 1))
    as (d & g' & Hrun & _ & _ & _ & nf & tops & Hok & Hdraw & Hset).
  { discriminate. }
  { apply scenario_history_valid. }
  exists (decode d), (scenario_history ++ [mkrecord d 0]), g'.
  split; [exact Hrun|]. split; [reflexivity|].
  destruct Hok as ((L1 & P1) & _).
  change (first_count (skip 1 (constant_rng half 1))) with 2%nat in Hdraw.
  assert (Hne : f_toppings nf ≠ []) by (intros E; rewrite E in L1; discriminate).
  destruct (repeated_draw _ (skip 2 (constant_rng half 1)) _ _ Hne P1 eq_refl Hdraw)
    as (z & ->).
  rewrite decode_toppings_length, Hset. cbn [Py.list_set].
  rewrite filter_nil, filter_cons_False by (intros H; by apply H). done.
Qed.

Example str_example_3 :
  __str__ (Order.mk ["tapioca"; "pudding"; "red bean"] "milk tea" 50 "no") =
  "A milk tea tea with tapioca, pudding, and red bean with 50 percent sugar and no ice."%string.
Proof. reflexivity. Qed.

Example str_example_2 :
  __str__ (Order.mk ["tapioca"; "pudding"] "punch" 5 "less") =
  "A punch tea with tapioca and pudding with 5 percent sugar and less ice."%string.
Proof. reflexivity. Qed.

(** * Further properties of the code *)

(** ** Orders: construction and encoding *)

Lemma value_at_elem_of (l : list string) (z : Z) :
  in_range (Py.len l) z → value_at l z ∈ l.
Proof.
  unfold in_range, Py.len, value_at. intros Hz.
  destruct (lookup_lt_is_Some_2 l (Z.to_nat z)) as [x Hx]; [lia|].
  rewrite Hx. simpl. by eapply list_elem_of_lookup_2.
Qed.

(** X1: built from integer indices of any sign and size, an order always
    exists; it has one topping per index, every value belongs to its
    domain and the sugar percentage lies in [0, 100). *)
Theorem init_index_in_domain (tops : list Z) (tea sugar ice : Z) :
  ∃ o, Order.init (Order.FromIndex tops tea sugar ice) = Some o ∧
    length (Order.toppings o) = length tops ∧
    Forall (λ t, t ∈ Order.topping_list) (Order.toppings o) ∧
    Order.tea_type o ∈ Order.tea_types ∧
    (0 <= Order.sugar_percentage o < 100)%Z ∧
    Order.ice_category o ∈ Order.ice_categories.
Proof.
  exists (order_at tops tea sugar ice). split; [apply init_from_index|].
  unfold order_at. cbn [Order.toppings Order.tea_type Order.sugar_percentage
                         Order.ice_category].
  split; [by rewrite length_map|]. split; [|split; [|split]].
  - apply Forall_map, Forall_forall. intros t _.
    apply value_at_elem_of. by apply mod_in_range.
  - apply value_at_elem_of. by apply mod_in_range.
  - by apply Z.mod_pos_bound.
  - apply value_at_elem_of. by apply mod_in_range.
Qed.

(** X2: on fractions in [0, 1) the two ways of building an order agree:
    [from_uniform=True] builds the order that [from_uniform=False] builds
    from the indices [floor(x * n)]. *)
Theorem init_uniform_is_index (tops : list R) (tea sugar ice : R) :
  Forall (λ u, 0 <= u < 1) tops → 0 <= tea < 1 → 0 <= sugar < 1 → 0 <= ice < 1 →
  Order.init (Order.FromUniform tops tea sugar ice) =
  Order.init (Order.FromIndex (map (λ u, Int_part (u * 10)) tops)
                (Int_part (tea * 8)) (Int_part (sugar * 100)) (Int_part (ice * 4))) ∧
  is_Some (Order.init (Order.FromUniform tops tea sugar ice)).
Proof.
  intros Ht Ha Hs Hi. rewrite init_from_uniform by done.
  rewrite init_from_index. split; [done|eauto].
Qed.

Lemma half_fractions :
  Forall (λ u, 0 <= u < 1) [1 / 2; 1 / 4] ∧ 0 <= 1 / 2 < 1.
Proof. split; [|lra]. constructor; [lra|]. constructor; [lra|constructor]. Qed.

Lemma init_uniform_is_index_witness :
  Order.init (Order.FromUniform [1 / 2; 1 / 4] (1 / 2) (1 / 2) (1 / 2)) =
  Order.init (Order.FromIndex (map (λ u, Int_part (u * 10)) [1 / 2; 1 / 4])
                (Int_part (1 / 2 * 8)) (Int_part (1 / 2 * 100)) (Int_part (1 / 2 * 4))) ∧
  is_Some (Order.init (Order.FromUniform [1 / 2; 1 / 4] (1 / 2) (1 / 2) (1 / 2))).
Proof.
  destruct half_fractions as [Ht Hh].
  exact (init_uniform_is_index [1 / 2; 1 / 4] (1 / 2) (1 / 2) (1 / 2) Ht Hh Hh Hh).
Defined.

(** X3: the dictionary of an order built from indices holds those indices
    reduced modulo the sizes of their domains (and the sugar modulo 100),
    and building an order from that dictionary gives the same order. *)
Theorem to_dict_init_index (tops : list Z) (tea sugar ice : Z) :
  ∃ o, Order.init (Order.FromIndex tops tea sugar ice) = Some o ∧
    Order.to_dict o =
      Some (Order.mkdict (map (λ t, t mod 10)%Z tops) (tea mod 8)%Z
              (sugar mod 100)%Z (ice mod 4)%Z) ∧
    Order.init (Order.FromIndex (map (λ t, t mod 10)%Z tops) (tea mod 8)%Z
                  (sugar mod 100)%Z (ice mod 4)%Z) = Some o.
Proof.
  exists (order_at tops tea sugar ice).
  split; [apply init_from_index|]. split; [apply to_dict_order_at|].
  exact (index_round_trip tops tea sugar ice _ _ (init_from_index _ _ _ _)
           (to_dict_order_at _ _ _ _)).
Qed.

Lemma index_Some (l : list string) (x : string) (z : Z) :
  Py.index l x = Some z → in_range (Py.len l) z ∧ l !! Z.to_nat z = Some x.
Proof.
  unfold in_range, Py.len. revert z. induction l as [|y l IH]; intros z H; [done|].
  simpl in H. destruct (String.eqb_spec y x) as [->|_].
  - simplify_eq. simpl. split; [lia|done].
  - destruct (Py.index l x) as [z'|]; [|done]. simpl in H. simplify_eq.
    destruct (IH z' eq_refl) as [Hr Hl]. split; [simpl; lia|].
    replace (Z.to_nat (Z.succ z')) with (S (Z.to_nat z')) by lia. done.
Qed.

Lemma index_None (l : list string) (x : string) :
  Py.index l x = None ↔ x ∉ l.
Proof.
  induction l as [|y l IH]; simpl.
  - split; [intros _; apply not_elem_of_nil|done].
  - rewrite not_elem_of_cons. destruct (String.eqb_spec y x) as [->|Hne].
    + split; [done|]. intros [? _]. done.
    + rewrite fmap_None, IH. split; [intros ?; split; [congruence|done]|tauto].
Qed.

Lemma index_value (l : list string) (x : string) (z : Z) :
  Py.index l x = Some z → value_at l z = x.
Proof. intros [_ H]%index_Some. unfold value_at. by rewrite H. Qed.

(** X4: [to_dict] raises exactly when some value of the order is not in
    its domain list; when it returns, its indices are in range and stand
    for the values of the order, the sugar percentage being kept as it is. *)
Theorem to_dict_decodes (o : Order.t) :
  (Order.to_dict o = None ↔
     ¬ (Forall (λ t, t ∈ Order.topping_list) (Order.toppings o) ∧
        Order.tea_type o ∈ Order.tea_types ∧
        Order.ice_category o ∈ Order.ice_categories)) ∧
  ∀ d, Order.to_dict o = Some d →
    Forall (in_range 10) (Order.d_toppings d) ∧
    in_range 8 (Order.d_tea_type d) ∧ in_range 4 (Order.d_ice_category d) ∧
    decode d = o.
Proof.
  destruct o as [tops tea sugar ice]. unfold Order.to_dict.
  cbn [Order.toppings Order.tea_type Order.sugar_percentage Order.ice_category].
  destruct (mapM (Py.index Order.topping_list) tops) as [zs|] eqn:Hm.
  - apply mapM_Some in Hm.
    destruct (Py.index Order.tea_types tea) as [a|] eqn:Ha.
    + destruct (Py.index Order.ice_categories ice) as [c|] eqn:Hc.
      * cbn. split.
        { split; [done|]. intros H. exfalso. apply H. split; [|split].
          - apply Forall_forall. intros t Ht.
            destruct (proj1 (list_elem_of_lookup _ _) Ht) as [i Hi].
            destruct (Forall2_lookup_l _ _ _ _ _ Hm Hi) as (z & _ & Hz).
            apply index_Some in Hz as [_ Hz]. by eapply list_elem_of_lookup_2.
          - apply index_Some in Ha as [_ Ha]. by eapply list_elem_of_lookup_2.
          - apply index_Some in Hc as [_ Hc]. by eapply list_elem_of_lookup_2. }
        intros d [= <-]. cbn. split; [|split; [|split]].
        { apply Forall_forall. intros z Hz.
          destruct (proj1 (list_elem_of_lookup _ _) Hz) as [i Hi].
          destruct (Forall2_lookup_r _ _ _ _ _ Hm Hi) as (t & _ & Ht).
          by apply index_Some in Ht as [Ht _]. }
        { by apply index_Some in Ha as [Ha _]. }
        { by apply index_Some in Hc as [Hc _]. }
        unfold decode. cbn. f_equal.
        -- apply list_eq. intros i. rewrite list_lookup_fmap.
           destruct (tops !! i) as [t|] eqn:Ht.
           ++ destruct (Forall2_lookup_l _ _ _ _ _ Hm Ht) as (z & -> & Hz).
              simpl. f_equal. by apply index_value.
           ++ apply lookup_ge_None in Ht.
              rewrite (lookup_ge_None_2 zs i); [done|].
              by rewrite <- (Forall2_length _ _ _ Hm).
        -- by apply index_value.
        -- by apply index_value.
      * cbn. split; [|done]. split; [|done]. intros _ (_ & _ & H).
        by apply index_None in Hc.
    + cbn. split; [|done]. split; [|done]. intros _ (_ & H & _).
      by apply index_None in Ha.
  - cbn. split; [|done]. split; [|done]. intros _ (H & _).
    assert (is_Some (mapM (Py.index Order.topping_list) tops)) as [? ?]; [|congruence].
    apply mapM_is_Some. eapply Forall_impl; [exact H|]. intros t Ht. simpl.
    destruct (Py.index Order.topping_list t) eqn:E; [eauto|].
    by apply index_None in E.
Qed.

(** X5: an order built with [from_uniform=True] from fractions in [0, 1)
    has a dictionary with indices in range and a sugar percentage in
    [0, 100), from which [from_uniform=False] builds the same order. *)
Theorem uniform_order_round_trip (tops : list R) (tea sugar ice : R) :
  Forall (λ u, 0 <= u < 1) tops → 0 <= tea < 1 → 0 <= sugar < 1 → 0 <= ice < 1 →
  ∃ o d, Order.init (Order.FromUniform tops tea sugar ice) = Some o ∧
    Order.to_dict o = Some d ∧ dict_in_range d ∧
    Order.init (Order.FromIndex (Order.d_toppings d) (Order.d_tea_type d)
                  (Order.d_sugar_percentage d) (Order.d_ice_category d)) = Some o.
Proof.
  intros Ht Ha Hs Hi.
  set (d := Order.mkdict (map (λ u, Int_part (u * 10)) tops) (Int_part (tea * 8))
              (Int_part (sugar * 100)) (Int_part (ice * 4))).
  assert (Hd : dict_in_range d).
  { unfold dict_in_range, d. cbn. split; [|split; [|split]].
    - apply Forall_map. eapply Forall_impl; [exact Ht|]. intros u Hu. simpl.
      by destruct (int_unit u 10 Hu ltac:(lia)).
    - by destruct (int_unit tea 8 Ha ltac:(lia)).
    - by destruct (int_unit sugar 100 Hs ltac:(lia)).
    - by destruct (int_unit ice 4 Hi ltac:(lia)). }
  destruct (decode_in_range d Hd) as [Ho Hdict].
  exists (decode d), d. rewrite init_from_uniform by done.
  split; [by rewrite <- Ho|]. split; [done|]. split; [done|].
  rewrite init_from_index. by rewrite Ho.
Qed.

Lemma uniform_order_round_trip_witness :
  ∃ o d, Order.init (Order.FromUniform [1 / 2; 1 / 4] (1 / 2) (1 / 2) (1 / 2)) = Some o ∧
    Order.to_dict o = Some d ∧ dict_in_range d ∧
    Order.init (Order.FromIndex (Order.d_toppings d) (Order.d_tea_type d)
                  (Order.d_sugar_percentage d) (Order.d_ice_category d)) = Some o.
Proof.
  destruct half_fractions as [Ht Hh].
  exact (uniform_order_round_trip [1 / 2; 1 / 4] (1 / 2) (1 / 2) (1 / 2) Ht Hh Hh Hh).
Defined.

(** ** The penalty *)

(** X6: the penalty is defined exactly for non-negative days; it is
    positive exactly below 5 days and equal to 1 exactly at 0 days. *)
Theorem novelty_penalty_window (d : R) :
  (novelty_penalty d = None ↔ d < 0) ∧
  ∀ p, novelty_penalty d = Some p →
    0 <= p <= 1 ∧ (0 < p ↔ d < 5) ∧ (p = 1 ↔ d = 0).
Proof.
  split.
  - unfold novelty_penalty. destruct (Rlt_dec d 0); split; (done || lra).
  - intros p Hp. pose proof (novelty_penalty_Some _ _ Hp) as [Hd Hr].
    rewrite novelty_penalty_nonneg_days in Hp by done. simplify_eq.
    split; [done|]. pose proof (sqrt_pos (5 * d)) as Hs.
    split; split.
    + intros Hpos. destruct (Rlt_dec d 5) as [|Hge]; [done|]. exfalso.
      assert (sqrt 25 <= sqrt (5 * d)) as H by (apply sqrt_le_1_alt; lra).
      rewrite sqrt_25 in H. rewrite Rmax_right in Hpos; lra.
    + intros Hlt.
      assert (sqrt (5 * d) < sqrt 25) as H by (apply sqrt_lt_1_alt; lra).
      rewrite sqrt_25 in H. eapply Rlt_le_trans; [|apply Rmax_l]. lra.
    + intros H1. destruct (Req_dec_T (sqrt (5 * d)) 0) as [E|E].
      * apply sqrt_eq_0 in E; lra.
      * exfalso. unfold Rmax in H1. destruct (Rle_dec _ _); lra.
    + intros ->. rewrite Rmult_0_r, sqrt_0. rewrite Rmax_left; lra.
Qed.

(** X7: within the renewal period the penalty decreases strictly with the
    number of days. *)
Theorem novelty_penalty_strict (d d' : R) :
  0 <= d → d < d' → d' <= 5 →
  ∃ p p', novelty_penalty d = Some p ∧ novelty_penalty d' = Some p' ∧ p' < p.
Proof.
  intros Hd Hlt H5. eexists _, _.
  rewrite !novelty_penalty_nonneg_days by lra.
  split; [done|]. split; [done|].
  assert (sqrt (5 * d) < sqrt (5 * d')) as H by (apply sqrt_lt_1_alt; lra).
  assert (sqrt (5 * d') <= sqrt 25) as H' by (apply sqrt_le_1_alt; lra).
  rewrite sqrt_25 in H'. pose proof (sqrt_pos (5 * d)).
  rewrite !Rmax_left by lra. lra.
Qed.

Lemma novelty_penalty_strict_witness :
  ∃ p p', novelty_penalty 1 = Some p ∧ novelty_penalty 2 = Some p' ∧ p' < p.
Proof.
  assert (H0 : 0 <= 1) by lra. assert (H1 : 1 < 2) by lra.
  assert (H2 : 2 <= 5) by lra.
  exact (novelty_penalty_strict 1 2 H0 H1 H2).
Defined.

(** ** The novelty factors *)

(** X8: the loop over the previous orders returns exactly on the
    histories of valid records: a record dated in the future or an index
    outside [-len, len) makes it raise. *)
Theorem novelty_factors_returns_iff (today : Z) (h : list record) :
  is_Some (novelty_factors today h) ↔ Forall (valid_record today) h.
Proof.
  split.
  - intros [nf H]. by destruct (novelty_factors_lookup _ _ _ H) as (_ & ? & _).
  - apply novelty_factors_valid.
Qed.

Lemma penalty_of_old (today : Z) (r : record) :
  (5 <= today - date r)%Z → penalty_of today r = 0.
Proof.
  intros H. unfold penalty_of. apply IZR_le in H.
  rewrite novelty_penalty_nonneg_days by lra. simpl.
  assert (sqrt 25 <= sqrt (5 * IZR (today - date r))) as Hs
    by (apply sqrt_le_1_alt; lra).
  rewrite sqrt_25 in Hs. rewrite Rmax_right; lra.
Qed.

Lemma occurrence_penalties_recent today refs n j (h : list record) :
  occurrence_penalties today refs n j (filter (λ r, (today - date r < 5)%Z) h) =
  occurrence_penalties today refs n j h.
Proof.
  unfold occurrence_penalties. induction h as [|r h IH]; [done|].
  rewrite filter_cons. case_decide as Hr; simpl; rewrite IH; [done|].
  rewrite penalty_of_old by lia. lra.
Qed.

Lemma novelty_factors_same (today : Z) (h h' : list record) :
  Forall (valid_record today) h → Forall (valid_record today) h' →
  (∀ refs n j, occurrence_penalties today refs n j h' =
               occurrence_penalties today refs n j h) →
  novelty_factors today h' = novelty_factors today h.
Proof.
  intros Hv Hv' Hocc.
  destruct (novelty_factors_valid today h Hv) as [nf H].
  destruct (novelty_factors_valid today h' Hv') as [nf' H'].
  rewrite H, H'. f_equal.
  destruct (novelty_factors_lookup _ _ _ H) as ((L1 & L2 & L3) & _ & F1 & F2 & F3).
  destruct (novelty_factors_lookup _ _ _ H') as ((M1 & M2 & M3) & _ & G1 & G2 & G3).
  destruct nf as [t a c], nf' as [t' a' c']. simpl in *. f_equal.
  - apply (vector_eq _ _ _ _ _ L1 M1 F1 G1). intros j. by rewrite Hocc.
  - apply (vector_eq _ _ _ _ _ L2 M2 F2 G2). intros j. by rewrite Hocc.
  - apply (vector_eq _ _ _ _ _ L3 M3 F3 G3). intros j. by rewrite Hocc.
Qed.

(** X9: orders that are 5 or more days old have no effect: the weights of
    a valid history are those of its records younger than 5 days. *)
Theorem old_orders_forgotten (today : Z) (h : list record) :
  Forall (valid_record today) h →
  novelty_factors today h =
  novelty_factors today (filter (λ r, (today - date r < 5)%Z) h) ∧
  is_Some (novelty_factors today h).
Proof.
  intros Hv. split; [|by apply novelty_factors_valid].
  symmetry. apply novelty_factors_same; [done| |].
  - rewrite Forall_forall in Hv. apply Forall_forall. intros r Hr.
    apply list_elem_of_filter in Hr as [_ Hr]. by apply Hv.
  - intros refs n j. apply occurrence_penalties_recent.
Qed.

Lemma mixed_history_valid : Forall (valid_record 10) mixed_history.
Proof.
  unfold mixed_history, valid_record, valid_index.
  repeat (constructor; [simpl; split; [lia|]; split;
                          [repeat (constructor; [lia|]); constructor | lia]|]).
  constructor.
Qed.

Lemma old_orders_forgotten_witness :
  novelty_factors 10 mixed_history =
  novelty_factors 10 (filter (λ r, (10 - date r < 5)%Z) mixed_history) ∧
  is_Some (novelty_factors 10 mixed_history).
Proof. exact (old_orders_forgotten 10 mixed_history mixed_history_valid). Defined.

Lemma occurrences_elem_of (n j : nat) (i : Z) (idx : list Z) :
  i ∈ idx → Py.norm_index n i = Some j → (1 <= occurrences n j idx)%nat.
Proof.
  intros Hin Hj. induction Hin as [i idx|i i' idx _ IH];
    rewrite occurrences_cons.
  - rewrite decide_True by done. lia.
  - specialize (IH Hj). lia.
Qed.

Lemma occurrence_penalties_elem_of today refs n j (h : list record) (r : record) :
  r ∈ h →
  INR (occurrences n j (refs r)) * penalty_of today r
  <= occurrence_penalties today refs n j h.
Proof.
  intros Hin. induction Hin as [r h|r r' h _ IH].
  - pose proof (occurrence_penalties_nonneg today refs n j h) as H.
    unfold occurrence_penalties in *. simpl. lra.
  - pose proof (penalty_of_range today r') as [? _].
    pose proof (pos_INR (occurrences n j (refs r'))).
    unfold occurrence_penalties in *. simpl. nra.
Qed.

Lemma penalty_of_today (r : record) : penalty_of (date r) r = 1.
Proof.
  unfold penalty_of. rewrite Z.sub_diag. by rewrite novelty_penalty_0.
Qed.

Lemma weight_of_today today refs n j (h : list record) (r : record) (i : Z) :
  r ∈ h → date r = today → i ∈ refs r → Py.norm_index n i = Some j →
  Py.max0 (1 - occurrence_penalties today refs n j h) = 0.
Proof.
  intros Hr Hd Hi Hj.
  pose proof (occurrence_penalties_elem_of today refs n j h r Hr) as H.
  rewrite <- Hd, penalty_of_today, Hd in H.
  pose proof (occurrences_elem_of n j i (refs r) Hi Hj) as Ho.
  apply le_INR in Ho. simpl in Ho.
  unfold Py.max0. rewrite Rmax_right; lra.
Qed.

(** X10: a value that an order of today refers to has weight 0, whatever
    else the history holds. *)
Theorem used_today_weight_zero (today : Z) (h : list record) (r : record) :
  Forall (valid_record today) h → r ∈ h → date r = today →
  ∃ nf, novelty_factors today h = Some nf ∧
    (∀ t j, t ∈ Order.d_toppings (order r) → Py.norm_index 10 t = Some j →
            f_toppings nf !! j = Some 0) ∧
    (∀ j, Py.norm_index 8 (Order.d_tea_type (order r)) = Some j →
          f_tea_type nf !! j = Some 0) ∧
    (∀ j, Py.norm_index 4 (Order.d_ice_category (order r)) = Some j →
          f_ice_category nf !! j = Some 0).
Proof.
  intros Hv Hr Hd. destruct (novelty_factors_valid today h Hv) as [nf H].
  exists nf. split; [done|].
  destruct (novelty_factors_lookup _ _ _ H) as (_ & _ & F1 & F2 & F3).
  split; [|split].
  - intros t j Ht Hj. rewrite F1 by (by eapply norm_index_lt). f_equal.
    by apply (weight_of_today today topping_refs 10 j h r t).
  - intros j Hj. rewrite F2 by (by eapply norm_index_lt). f_equal.
    apply (weight_of_today today tea_type_refs 8 j h r
             (Order.d_tea_type (order r)) Hr Hd); [|done].
    unfold tea_type_refs. by apply list_elem_of_singleton.
  - intros j Hj. rewrite F3 by (by eapply norm_index_lt). f_equal.
    apply (weight_of_today today ice_category_refs 4 j h r
             (Order.d_ice_category (order r)) Hr Hd); [|done].
    unfold ice_category_refs. by apply list_elem_of_singleton.
Qed.

Lemma mixed_history_today :
  mkrecord (Order.mkdict [(-1)%Z] 1 99 (-4)) 10 ∈ mixed_history.
Proof. unfold mixed_history. do 2 apply list_elem_of_further. apply list_elem_of_here. Qed.

Lemma used_today_weight_zero_witness :
  ∃ nf, novelty_factors 10 mixed_history = Some nf ∧
    f_toppings nf !! 9%nat = Some 0 ∧ f_tea_type nf !! 1%nat = Some 0 ∧
    f_ice_category nf !! 0%nat = Some 0.
Proof.
  destruct (used_today_weight_zero 10 mixed_history _ mixed_history_valid
              mixed_history_today eq_refl) as (nf & H & T & A & I).
  exists nf. split; [exact H|]. split; [|split].
  - apply (T (-1)%Z 9%nat); [apply list_elem_of_here | reflexivity].
  - apply (A 1%nat). reflexivity.
  - apply (I 0%nat). reflexivity.
Defined.

Lemma Rsum_app (l l' : list R) : Rsum (l ++ l') = Rsum l + Rsum l'.
Proof. unfold Rsum. induction l as [|x l IH]; simpl; [lra|]. rewrite IH. lra. Qed.

Lemma lower_weights (v v' : list R) (n : nat) (s s' : nat → R) :
  length v = n → length v' = n →
  (∀ j, (j < n)%nat → v !! j = Some (Py.max0 (1 - s j))) →
  (∀ j, (j < n)%nat → v' !! j = Some (Py.max0 (1 - s' j))) →
  (∀ j, s j <= s' j) →
  Forall2 Rle v' v.
Proof.
  intros L L' F F' Hs. apply Forall2_same_length_lookup_2; [congruence|].
  intros j x y Hx Hy.
  assert (j < n)%nat by (rewrite <- L'; by eapply lookup_lt_Some).
  rewrite F' in Hx by done. rewrite F in Hy by done. simplify_eq.
  specialize (Hs j). unfold Py.max0, Rmax. repeat destruct (Rle_dec _ _); lra.
Qed.

(** X11: more history never raises a weight: each weight computed from a
    history followed by further records is at most the weight computed
    from the history alone. *)
Theorem more_history_lower_weights (today : Z) (h more : list record) :
  Forall (valid_record today) (h ++ more) →
  ∃ nf nf', novelty_factors today h = Some nf ∧
    novelty_factors today (h ++ more) = Some nf' ∧
    Forall2 Rle (f_toppings nf') (f_toppings nf) ∧
    Forall2 Rle (f_tea_type nf') (f_tea_type nf) ∧
    Forall2 Rle (f_ice_category nf') (f_ice_category nf).
Proof.
  intros Hv. pose proof Hv as [Hv1 _]%Forall_app.
  destruct (novelty_factors_valid today h Hv1) as [nf H].
  destruct (novelty_factors_valid today _ Hv) as [nf' H'].
  exists nf, nf'. split; [done|]. split; [done|].
  destruct (novelty_factors_lookup _ _ _ H) as ((L1 & L2 & L3) & _ & F1 & F2 & F3).
  destruct (novelty_factors_lookup _ _ _ H') as ((M1 & M2 & M3) & _ & G1 & G2 & G3).
  assert (Hocc : ∀ refs n j, occurrence_penalties today refs n j h
                   <= occurrence_penalties today refs n j (h ++ more)).
  { intros refs n j.
    pose proof (occurrence_penalties_nonneg today refs n j more) as Hm.
    unfold occurrence_penalties in *. rewrite map_app, Rsum_app. lra. }
  split; [|split].
  - apply (lower_weights _ _ _ _ _ L1 M1 F1 G1). intros j. apply Hocc.
  - apply (lower_weights _ _ _ _ _ L2 M2 F2 G2). intros j. apply Hocc.
  - apply (lower_weights _ _ _ _ _ L3 M3 F3 G3). intros j. apply Hocc.
Qed.

Lemma more_history_lower_weights_witness :
  ∃ nf nf', novelty_factors 10 (take 1 mixed_history) = Some nf ∧
    novelty_factors 10 mixed_history = Some nf' ∧
    Forall2 Rle (f_toppings nf') (f_toppings nf).
Proof.
  destruct (more_history_lower_weights 10 (take 1 mixed_history)
              (drop 1 mixed_history) mixed_history_valid)
    as (nf & nf' & H & H' & T & _).
  exists nf, nf'. split; [exact H|]. split; [exact H' | exact T].
Defined.

(** ** Drawing *)

Lemma weighted_share_positive (v : list R) (i : nat) (u : R) :
  weighted_share v i u → ∃ w, v !! i = Some w ∧ 0 < w.
Proof.
  intros [L U]. destruct (v !! i) as [w|] eqn:Hw.
  - exists w. split; [done|]. rewrite (prefix_sum_S v i w Hw) in U. lra.
  - apply lookup_ge_None in Hw.
    rewrite !prefix_sum_all in * by lia. lra.
Qed.

Lemma drawn_positive (v : list R) (k : nat) (g g' : Random.rng) (xs : list Z) :
  v ≠ [] → Forall (λ w, 0 <= w) v → Py.sum v ≠ 0 →
  draw_values v k g = Some (xs, g') →
  ∀ z, z ∈ xs → ∃ i w, z = Z.of_nat i ∧ v !! i = Some w ∧ 0 < w.
Proof.
  intros Hne Hv Hs Hrun z Hz.
  destruct (draw_values_spec v k g Hne Hv) as (xs' & Hrun' & Hlen & Hlook).
  rewrite Hrun in Hrun'. simplify_eq.
  apply list_elem_of_lookup in Hz as [p Hp].
  destruct (Hlook p) as (i & Hi & _ & _ & Hw).
  { by eapply lookup_lt_Some. }
  destruct (weighted_share_positive v i _ (Hw Hs)) as (w & ? & ?).
  exists i, w. rewrite Hi in Hp. by simplify_eq.
Qed.

(** X12: when a single value of a domain has a positive weight and all
    the others have weight 0, every draw yields that value. *)
Theorem sole_positive_weight_drawn (v : list R) (i : nat) (w : R) (k : nat)
    (g : Random.rng) :
  v !! i = Some w → 0 < w → (∀ j x, j ≠ i → v !! j = Some x → x = 0) →
  draw_values v k g = Some (replicate k (Z.of_nat i), skip k g).
Proof.
  intros Hi Hw Hz.
  assert (Hne : v ≠ []) by (by destruct v).
  assert (Hv : Forall (λ x, 0 <= x) v).
  { apply Forall_lookup_2. intros j x Hx.
    destruct (decide (j = i)) as [->|Hj]; [simplify_eq; lra|].
    rewrite (Hz j x Hj Hx). lra. }
  assert (Hs : Py.sum v ≠ 0).
  { pose proof (prefix_sum_mono v 0 i Hv ltac:(lia)) as H0.
    pose proof (prefix_sum_mono v (S i) (length v) Hv) as H1.
    rewrite prefix_sum_0 in H0. rewrite (prefix_sum_S v i w Hi) in H1.
    rewrite (prefix_sum_all v (length v)) in H1 by lia.
    apply lookup_lt_Some in Hi. specialize (H1 ltac:(lia)). lra. }
  destruct (draw_values_spec v k g Hne Hv) as (xs & Hrun & Hlen & Hlook).
  rewrite Hrun. do 2 f_equal. apply list_eq. intros p.
  destruct (decide (p < k)%nat) as [Hp|Hp].
  - rewrite lookup_replicate_2 by done.
    destruct (Hlook p Hp) as (i0 & Hi0 & _ & _ & Hsh).
    destruct (weighted_share_positive v i0 _ (Hsh Hs)) as (w0 & Hw0 & Hpos).
    destruct (decide (i0 = i)) as [->|Hne0]; [done|].
    rewrite (Hz i0 w0 Hne0 Hw0) in Hpos. lra.
  - rewrite lookup_ge_None_2 by lia.
    symmetry. apply lookup_replicate_None. lia.
Qed.

Lemma sole_positive_weight_drawn_witness :
  draw_values [0; 1; 0] 3 (constant_rng half 0)
  = Some ([1; 1; 1]%Z, skip 3 (constant_rng half 0)).
Proof.
  apply (sole_positive_weight_drawn [0; 1; 0] 1 1 3 (constant_rng half 0) eq_refl Rlt_0_1).
  intros [|[|[|j]]] x Hj Hx; simplify_eq/=; done.
Defined.

(** ** Generating orders *)

Lemma single_value (xs : list Z) : length xs = 1%nat → ∃ z, xs = [z].
Proof. destruct xs as [|z [|??]]; intros; simplify_eq/=. eauto. Qed.

Lemma select_args_draws (nf : factors) (g : Random.rng) :
  factors_ok nf →
  let k := first_count (skip 1 g) in
  ∃ tops tea ice,
    draw_values (f_toppings nf) k (skip 2 g) = Some (tops, skip (2 + k) g) ∧
    draw_values (f_tea_type nf) 1 (skip (2 + k) g) = Some ([tea], skip (3 + k) g) ∧
    draw_values (f_ice_category nf) 1 (skip (3 + k) g) = Some ([ice], skip (4 + k) g) ∧
    length tops = k ∧
    dict_in_range (Order.mkdict (Py.list_set tops) tea
                     (Int_part (float_at g (Random.pos g) * 100)) ice) ∧
    select_args nf g =
      Some (Order.FromIndex (Py.list_set tops) tea
              (Int_part (float_at g (Random.pos g) * 100)) ice, skip (4 + k) g).
Proof.
  intros ((L1 & P1) & (L2 & P2) & (L3 & P3)) k.
  destruct (drawn_in_range _ k (skip 2 g) 10 L1 ltac:(lia) P1)
    as (tops & Ht & Htl & Htr).
  destruct (drawn_in_range _ 1 (skip (2 + k) g) 8 L2 ltac:(lia) P2)
    as (teas & Ha & Hal & Har).
  destruct (single_value teas Hal) as [tea ->].
  destruct (drawn_in_range _ 1 (skip (3 + k) g) 4 L3 ltac:(lia) P3)
    as (ices & Hi & Hil & Hir).
  destruct (single_value ices Hil) as [ice ->].
  destruct (int_unit _ 100 (float_at_range g (Random.pos g)) ltac:(lia))
    as [Es Hs].
  rewrite skip_skip in Ht, Ha, Hi.
  replace (2 + k + 1)%nat with (3 + k)%nat in Ha by lia.
  replace (3 + k + 1)%nat with (4 + k)%nat in Hi by lia.
  exists tops, tea, ice. split; [done|]. split; [done|]. split; [done|].
  split; [done|]. split.
  { split; [by apply list_set_Forall|]. split; [by inversion Har|].
    split; [done|]. by inversion Hir. }
  unfold select_args.
  rewrite (mbind_run _ _ _ _ _ (random_run g)).
  rewrite (mbind_run _ _ _ _ _ (count_run (skip 1 g))).
  rewrite Nat2Z.id, skip_skip. change (1 + 1)%nat with 2%nat. fold k.
  rewrite (mbind_run _ _ _ _ _ Ht).
  rewrite (mbind_run _ _ _ _ _ Ha).
  rewrite (mbind_run _ _ _ _ _ (lift_run _ tea _ eq_refl)).
  rewrite (mbind_run _ _ _ _ _ Hi).
  rewrite (mbind_run _ _ _ _ _ (lift_run _ ice _ eq_refl)).
  change (IZR 100) with 100 in Es. rewrite Es. reflexivity.
Qed.

Lemma next_order_draws (today : Z) (h : list record) (g : Random.rng) :
  h ≠ [] → Forall (valid_record today) h →
  let k := first_count (skip 1 g) in
  ∃ nf tops tea ice d,
    novelty_factors today h = Some nf ∧ factors_ok nf ∧
    draw_values (f_toppings nf) k (skip 2 g) = Some (tops, skip (2 + k) g) ∧
    draw_values (f_tea_type nf) 1 (skip (2 + k) g) = Some ([tea], skip (3 + k) g) ∧
    draw_values (f_ice_category nf) 1 (skip (3 + k) g) = Some ([ice], skip (4 + k) g) ∧
    d = Order.mkdict (Py.list_set tops) tea
          (Int_part (float_at g (Random.pos g) * 100)) ice ∧
    dict_in_range d ∧
    new_order today h g
      = Some ((decode d, h ++ [mkrecord d today]), skip (4 + k) g).
Proof.
  intros Hne Hv k.
  destruct (novelty_factors_valid today h Hv) as [nf Hnf].
  pose proof (novelty_factors_ok _ _ _ Hnf) as Hok.
  destruct (select_args_draws nf g Hok)
    as (tops & tea & ice & Ht & Ha & Hi & _ & Hd & Hsel).
  fold k in Ht, Ha, Hi, Hsel.
  destruct (decode_in_range _ Hd) as [Ho Hdict].
  eexists nf, tops, tea, ice, _.
  split; [done|]. split; [done|]. split; [done|]. split; [done|].
  split; [done|]. split; [reflexivity|]. split; [done|].
  unfold new_order. rewrite decide_False by (by destruct h).
  rewrite (mbind_run _ _ _ _ _ (lift_run _ _ _ Hnf)).
  rewrite (mbind_run _ _ _ _ _ Hsel).
  rewrite init_from_index.
  cbn [Order.d_toppings Order.d_tea_type Order.d_sugar_percentage
       Order.d_ice_category] in Ho. rewrite Ho.
  rewrite (mbind_run _ _ _ _ _ (lift_run _ _ _ eq_refl)).
  rewrite (mbind_run _ _ _ _ _ (lift_run _ _ _ Hdict)).
  done.
Qed.

Lemma float_at_skip (n j : nat) (g : Random.rng) :
  float_at (skip n g) (Random.pos (skip n g) + j) =
  float_at g (Random.pos g + n + j).
Proof. reflexivity. Qed.

(** C4: the selector of [new_order] draws each categorical domain with
    probability proportional to its weights.  Run on weight vectors [nf]
    of the sizes of the domains, it returns the arguments of the new
    order: the toppings are the distinct values among [k] draws, the tea
    type and the ice category one draw each, every draw made with a
    uniform float of its own.  For each of the three domains, when the
    weights sum to 0 the draw yields value [i] exactly for the float in
    [i/n, (i+1)/n); when the sum is positive, exactly for [u * sum] in the
    interval of length [w] that follows the weights before [i], so that a
    value of weight 0 is never selected.  They are the draws of
    [new_order]: on a non-empty history that [novelty_factors] scores as
    [nf], it appends the record of these very values. *)
Theorem selector_distribution (nf : factors) (g : Random.rng) :
  factors_ok nf →
  let p := Random.pos g in
  let k := first_count (skip 1 g) in
  ∃ draws tops tea ice,
    select_args nf g =
      Some (Order.FromIndex tops tea (Int_part (float_at g p * 100)) ice,
            skip (4 + k) g) ∧
    length draws = k ∧ NoDup tops ∧ (∀ z, z ∈ tops ↔ z ∈ draws) ∧
    (∀ j, (j < k)%nat →
       ∃ z, draws !! j = Some z ∧
            proportional_draw (f_toppings nf) (float_at g (p + 2 + j)) z) ∧
    proportional_draw (f_tea_type nf) (float_at g (p + 2 + k)) tea ∧
    proportional_draw (f_ice_category nf) (float_at g (p + 3 + k)) ice ∧
    ∀ today h, h ≠ [] → novelty_factors today h = Some nf →
      let d := Order.mkdict tops tea (Int_part (float_at g p * 100)) ice in
      new_order today h g =
        Some ((decode d, h ++ [mkrecord d today]), skip (4 + k) g).
Proof.
  intros Hok p k.
  destruct (select_args_draws nf g Hok)
    as (draws & tea & ice & Ht & Ha & Hi & Hlen & Hd & Hsel).
  fold k in Ht, Ha, Hi, Hlen, Hsel. fold p in Hd, Hsel.
  destruct Hok as ((L1 & P1) & (L2 & P2) & (L3 & P3)).
  assert (N1 : f_toppings nf ≠ []) by (intros E; rewrite E in L1; done).
  assert (N2 : f_tea_type nf ≠ []) by (intros E; rewrite E in L2; done).
  assert (N3 : f_ice_category nf ≠ []) by (intros E; rewrite E in L3; done).
  exists draws, (Py.list_set draws), tea, ice.
  split; [exact Hsel|]. split; [exact Hlen|].
  split; [apply list_set_NoDup|]. split; [intros z; apply list_set_elem_of|].
  split; [|split; [|split]].
  - destruct (draw_values_proportional _ k (skip 2 g) N1 P1)
      as (xs & Hrun & _ & Hlook).
    rewrite Ht in Hrun. injection Hrun as <-.
    intros j Hj. destruct (Hlook j Hj) as (z & Hz & Hp).
    rewrite float_at_skip in Hp. by exists z.
  - destruct (draw_values_proportional _ 1 (skip (2 + k) g) N2 P2)
      as (xs & Hrun & _ & Hlook).
    rewrite Ha in Hrun. injection Hrun as <-.
    destruct (Hlook 0%nat ltac:(lia)) as (z & [= <-] & Hp).
    rewrite float_at_skip in Hp.
    by replace (Random.pos g + (2 + k) + 0)%nat with (p + 2 + k)%nat in Hp
      by (unfold p; lia).
  - destruct (draw_values_proportional _ 1 (skip (3 + k) g) N3 P3)
      as (xs & Hrun & _ & Hlook).
    rewrite Hi in Hrun. injection Hrun as <-.
    destruct (Hlook 0%nat ltac:(lia)) as (z & [= <-] & Hp).
    rewrite float_at_skip in Hp.
    by replace (Random.pos g + (3 + k) + 0)%nat with (p + 3 + k)%nat in Hp
      by (unfold p; lia).
  - intros today h Hne Hnf d.
    destruct (decode_in_range _ Hd) as [Ho Hdict].
    unfold new_order. rewrite decide_False by (by destruct h).
    rewrite (mbind_run _ _ _ _ _ (lift_run _ _ _ Hnf)).
    rewrite (mbind_run _ _ _ _ _ Hsel).
    rewrite init_from_index.
    cbn [Order.d_toppings Order.d_tea_type Order.d_sugar_percentage
         Order.d_ice_category] in Ho. rewrite Ho.
    rewrite (mbind_run _ _ _ _ _ (lift_run _ _ _ eq_refl)).
    rewrite (mbind_run _ _ _ _ _ (lift_run _ _ _ Hdict)).
    done.
Qed.

Lemma selector_distribution_witness :
  ∃ tops tea ice,
    select_args initial_factors (constant_rng half 0) =
      Some (Order.FromIndex tops tea (Int_part (1 / 2 * 100)) ice,
            skip 5 (constant_rng half 0)) ∧
    length tops = 1%nat ∧ tea = 4%Z.
Proof.
  assert (Hok : factors_ok initial_factors).
  { destruct initial_factors_nonneg as (P1 & P2 & P3). repeat split; done. }
  destruct (selector_distribution initial_factors (constant_rng half 0) Hok)
    as (draws & tops & tea & ice & Hsel & Hlen & Hnd & Hin & Hdraw & Htea & _).
  exists tops, tea, ice. split; [exact Hsel|]. split.
  { destruct draws as [|z [|??]]; [done| |done].
    destruct tops as [|t [|t' tops]]; [|done|].
    - exfalso. eapply not_elem_of_nil, Hin. left.
    - exfalso. apply NoDup_cons in Hnd as [Hnd _]. apply Hnd.
      assert (t = z) as -> by (apply list_elem_of_singleton, Hin; left).
      assert (t' = z) as -> by
        (apply list_elem_of_singleton, Hin; right; left).
      left. }
  destruct Htea as [_ Hshare].
  destruct (Hshare 4%nat 1 eq_refl) as [_ Hpos].
  assert (Hs : Py.sum (f_tea_type initial_factors) = 8)
    by (unfold Py.sum; simpl; lra).
  rewrite Hs in Hpos. destruct (Hpos ltac:(lra)) as [Hiff _].
  apply Hiff. change (float_at (constant_rng half 0) _) with (1 / 2).
  unfold prefix_sum, Py.sum. simpl. lra.
Defined.

Lemma new_order_run (today : Z) (h : list record) (g : Random.rng) :
  Forall (valid_record today) h →
  ∃ d g', new_order today h g = Some ((decode d, h ++ [mkrecord d today]), g') ∧
          dict_in_range d.
Proof.
  intros Hv. destruct h as [|r h'].
  - eexists _, _. split; [apply first_order_run|apply first_dict_in_range].
  - destruct (next_order_draws today (r :: h') g ltac:(done) Hv)
      as (nf & tops & tea & ice & d & _ & _ & _ & _ & _ & _ & Hd & Hrun).
    eauto.
Qed.

(** X13: [new_order] returns exactly on the histories of valid records;
    on any other history it raises before anything is written. *)
Theorem new_order_returns_iff (today : Z) (h : list record) (g : Random.rng) :
  is_Some (new_order today h g) ↔ Forall (valid_record today) h.
Proof.
  split.
  - intros [r Hr]. destruct (novelty_factors today h) as [nf|] eqn:Hnf.
    + by destruct (novelty_factors_lookup _ _ _ Hnf) as (_ & ? & _).
    + destruct h as [|r0 h']; [constructor|]. exfalso.
      unfold new_order in Hr. rewrite decide_False in Hr by done.
      rewrite Hnf in Hr. done.
  - intros Hv. destruct (new_order_run today h g Hv) as (d & g' & -> & _). eauto.
Qed.

Lemma valid_record_later (today today' : Z) (r : record) :
  (today <= today')%Z → valid_record today r → valid_record today' r.
Proof. intros Hle (Hd & ?). split; [lia|done]. Qed.

Lemma in_range_valid (n : nat) (z : Z) : in_range (Z.of_nat n) z → valid_index n z.
Proof. unfold in_range, valid_index. lia. Qed.

Lemma new_record_valid (today : Z) (d : Order.dict) :
  dict_in_range d → valid_record today (mkrecord d today).
Proof.
  intros (Ht & Ha & _ & Hi). unfold valid_record. cbn [order date].
  split; [lia|]. split; [|split].
  - eapply Forall_impl; [exact Ht|]. intros z. apply (in_range_valid 10).
  - by apply (in_range_valid 8).
  - by apply (in_range_valid 4).
Qed.

(** X14: [new_order] keeps the history valid: run on valid records, it
    writes back records that are valid today and on every later day, so
    that the next run returns as well. *)
Theorem new_order_keeps_valid (today today' : Z) (h : list record) (g : Random.rng) :
  Forall (valid_record today) h → (today <= today')%Z →
  ∃ o h' g', new_order today h g = Some ((o, h'), g') ∧
    Forall (valid_record today') h' ∧
    ∀ g2, is_Some (new_order today' h' g2).
Proof.
  intros Hv Hle. destruct (new_order_run today h g Hv) as (d & g' & Hrun & Hd).
  assert (Hv' : Forall (valid_record today') (h ++ [mkrecord d today])).
  { apply Forall_app. split.
    - eapply Forall_impl; [exact Hv|]. intros r. by apply valid_record_later.
    - constructor; [|constructor].
      apply (valid_record_later today); [done|]. by apply new_record_valid. }
  eexists _, _, _. split; [exact Hrun|]. split; [done|].
  intros g2. destruct (new_order_run today' _ g2 Hv') as (d2 & g2' & -> & _). eauto.
Qed.

Lemma new_order_keeps_valid_witness :
  ∃ o h' g', new_order 10 mixed_history (constant_rng half 1) = Some ((o, h'), g') ∧
    Forall (valid_record 12) h'.
Proof.
  assert (Hle : (10 <= 12)%Z) by lia.
  destruct (new_order_keeps_valid 10 12 mixed_history (constant_rng half 1)
              mixed_history_valid Hle) as (o & h' & g' & Hrun & Hv & _).
  exists o, h', g'. split; [exact Hrun | exact Hv].
Defined.

Lemma new_orders_step (today : Z) (days : list Z) (h h1 : list record)
    (o : Order.t) (g g1 : Random.rng) :
  new_order today h g = Some ((o, h1), g1) →
  new_orders (today :: days) h g = new_orders days h1 g1.
Proof. intros H. simpl. by rewrite (mbind_run _ _ _ _ _ H). Qed.

(** X15: runs on successive days never fail and only append: starting
    from records valid on day [d0], one run for each of the days
    [d0 <= d1 <= ... <= dn] returns the old history followed by one record
    per run, dated with the days in order, all valid on the last day. *)
Theorem new_orders_append (d0 : Z) (days : list Z) (h : list record)
    (g : Random.rng) :
  Forall (valid_record d0) h → Sorted Z.le (d0 :: days) →
  ∃ new g', new_orders days h g = Some (h ++ new, g') ∧
    map date new = days ∧
    Forall (valid_record (default d0 (last days))) (h ++ new).
Proof.
  revert d0 h g. induction days as [|today days IH]; intros d0 h g Hv Hs.
  - exists [], g. rewrite app_nil_r. done.
  - apply Sorted_inv in Hs as [Hs Hd]. apply HdRel_inv in Hd.
    assert (Hv' : Forall (valid_record today) h).
    { eapply Forall_impl; [exact Hv|]. intros r. by apply valid_record_later. }
    destruct (new_order_run today h g Hv') as (d & g1 & Hrun & Hr).
    assert (Hv1 : Forall (valid_record today) (h ++ [mkrecord d today])).
    { apply Forall_app. split; [done|].
      constructor; [by apply new_record_valid|constructor]. }
    destruct (IH today _ g1 Hv1 Hs) as (new & g' & Hruns & Hdates & Hvalid).
    exists (mkrecord d today :: new), g'.
    rewrite (new_orders_step _ _ _ _ _ _ _ Hrun).
    rewrite <- app_assoc in Hruns, Hvalid. simpl in Hruns, Hvalid.
    split; [done|]. split; [simpl; by rewrite Hdates|].
    rewrite last_cons. by destruct (last days).
Qed.

Lemma sorted_days : Sorted Z.le [10; 10; 11; 14]%Z.
Proof.
  repeat first [apply Sorted_cons | apply Sorted_nil | apply HdRel_cons
               | apply HdRel_nil]; lia.
Qed.

Lemma new_orders_append_witness :
  ∃ new g', new_orders [10; 11; 14]%Z mixed_history (constant_rng half 1)
              = Some (mixed_history ++ new, g') ∧
    map date new = [10; 11; 14]%Z.
Proof.
  destruct (new_orders_append 10 [10; 11; 14]%Z mixed_history (constant_rng half 1)
              mixed_history_valid sorted_days) as (new & g' & Hrun & Hd & _).
  exists new, g'. split; [exact Hrun | exact Hd].
Defined.

(** X16: a value that an order of today refers to does not come back in
    the next order of today, unless every weight of its domain is 0: the
    new record lists no topping of today's order, and has neither its tea
    type nor its ice category. *)
Theorem used_today_not_redrawn (today : Z) (h : list record) (r : record)
    (g : Random.rng) :
  Forall (valid_record today) h → r ∈ h → date r = today →
  ∃ nf o d g', novelty_factors today h = Some nf ∧
    new_order today h g = Some ((o, h ++ [mkrecord d today]), g') ∧
    Order.to_dict o = Some d ∧
    (Py.sum (f_toppings nf) ≠ 0 →
       ∀ t j, t ∈ Order.d_toppings (order r) → Py.norm_index 10 t = Some j →
              Z.of_nat j ∉ Order.d_toppings d) ∧
    (Py.sum (f_tea_type nf) ≠ 0 →
       ∀ j, Py.norm_index 8 (Order.d_tea_type (order r)) = Some j →
            Order.d_tea_type d ≠ Z.of_nat j) ∧
    (Py.sum (f_ice_category nf) ≠ 0 →
       ∀ j, Py.norm_index 4 (Order.d_ice_category (order r)) = Some j →
            Order.d_ice_category d ≠ Z.of_nat j).
Proof.
  intros Hv Hr <-.
  assert (Hne : h ≠ []) by (intros ->; by apply not_elem_of_nil in Hr).
  destruct (next_order_draws (date r) h g Hne Hv)
    as (nf & tops & tea & ice & d & Hnf & Hok & Ht & Ha & Hi & -> & Hrange & Hrun).
  destruct (novelty_factors_lookup _ _ _ Hnf) as (_ & _ & F1 & F2 & F3).
  destruct Hok as ((L1 & P1) & (L2 & P2) & (L3 & P3)).
  assert (N : ∀ (v : list R) n, length v = S n → v ≠ []) by (by intros [|??]).
  eexists nf, _, _, _. split; [done|]. split; [exact Hrun|].
  split; [by apply decode_in_range|]. cbn [Order.d_toppings Order.d_tea_type
                                         Order.d_ice_category].
  split; [|split].
  - intros Hs t j Hin Hj Hdrawn. apply (proj1 (list_set_elem_of _ _)) in Hdrawn.
    destruct (drawn_positive _ _ _ _ _ (N _ _ L1) P1 Hs Ht _ Hdrawn)
      as (i & w & E & Hw & Hpos).
    apply Nat2Z.inj in E. subst i.
    rewrite F1 in Hw by (by eapply norm_index_lt). simplify_eq.
    rewrite (weight_of_today (date r) topping_refs 10 j h r t Hr eq_refl Hin Hj) in Hpos.
    lra.
  - intros Hs j Hj ->.
    destruct (drawn_positive _ _ _ _ _ (N _ _ L2) P2 Hs Ha (Z.of_nat j))
      as (i & w & E & Hw & Hpos); [apply list_elem_of_here|].
    apply Nat2Z.inj in E. subst i.
    rewrite F2 in Hw by (by eapply norm_index_lt). simplify_eq.
    rewrite (weight_of_today (date r) tea_type_refs 8 j h r
               (Order.d_tea_type (order r)) Hr eq_refl) in Hpos; [lra| |done].
    unfold tea_type_refs. by apply list_elem_of_singleton.
  - intros Hs j Hj ->.
    destruct (drawn_positive _ _ _ _ _ (N _ _ L3) P3 Hs Hi (Z.of_nat j))
      as (i & w & E & Hw & Hpos); [apply list_elem_of_here|].
    apply Nat2Z.inj in E. subst i.
    rewrite F3 in Hw by (by eapply norm_index_lt). simplify_eq.
    rewrite (weight_of_today (date r) ice_category_refs 4 j h r
               (Order.d_ice_category (order r)) Hr eq_refl) in Hpos; [lra| |done].
    unfold ice_category_refs. by apply list_elem_of_singleton.
Qed.

Lemma used_today_not_redrawn_witness :
  ∃ nf o d g', novelty_factors 10 mixed_history = Some nf ∧
    new_order 10 mixed_history (constant_rng half 1)
      = Some ((o, mixed_history ++ [mkrecord d 10]), g') ∧
    (Py.sum (f_tea_type nf) ≠ 0 → Order.d_tea_type d ≠ 1%Z).
Proof.
  destruct (used_today_not_redrawn 10 mixed_history _ (constant_rng half 1)
              mixed_history_valid mixed_history_today eq_refl)
    as (nf & o & d & g' & Hnf & Hrun & _ & _ & Ha & _).
  exists nf, o, d, g'. split; [exact Hnf|]. split; [exact Hrun|].
  intros Hs. exact (Ha Hs 1%nat eq_refl).
Defined.

(** ** The sentence of an order *)

Lemma append_assoc (a b c : string) : ((a ++ b) ++ c = a ++ b ++ c)%string.
Proof.
  induction a as [|x a IH]; [done|].
  change (String x ((a ++ b) ++ c) = String x (a ++ b ++ c))%string.
  by rewrite IH.
Qed.

Lemma replace_name_comma :
  Forall (λ a, ∀ rest,
    PyStr.replace " and," " and" (a ++ ", " ++ rest) =
    (a ++ "," ++ PyStr.replace " and," " and" (" " ++ rest))%string)
  Order.topping_list.
Proof.
  repeat (apply Forall_cons_2; [intros rest; vm_compute; reflexivity|]).
  apply Forall_nil_2.
Qed.

Lemma replace_space_name :
  Forall (λ b, ∀ rest,
    PyStr.replace " and," " and" (" " ++ b ++ ", " ++ rest) =
    (" " ++ PyStr.replace " and," " and" (b ++ ", " ++ rest))%string)
  Order.topping_list.
Proof.
  repeat (apply Forall_cons_2; [intros rest; vm_compute; reflexivity|]).
  apply Forall_nil_2.
Qed.

Lemma replace_and_name :
  Forall (λ c,
    PyStr.replace " and," " and" (" " ++ "and" ++ ", " ++ c) = (" and " ++ c)%string)
  Order.topping_list.
Proof.
  repeat (apply Forall_cons_2; [vm_compute; reflexivity|]).
  apply Forall_nil_2.
Qed.

Lemma concat_cons (sep x : string) (xs : list string) :
  xs ≠ [] → String.concat sep (x :: xs) = (x ++ sep ++ String.concat sep xs)%string.
Proof. by destruct xs. Qed.

Lemma replace_listing (l : list string) (c : string) :
  l ≠ [] → Forall (λ t, t ∈ Order.topping_list) l → c ∈ Order.topping_list →
  PyStr.replace " and," " and" (String.concat ", " (l ++ ["and"; c])) =
  (String.concat ", " l ++ ", and " ++ c)%string.
Proof.
  intros Hne Hl Hc.
  pose proof (proj1 (Forall_forall _ _) replace_name_comma) as A.
  pose proof (proj1 (Forall_forall _ _) replace_space_name) as B.
  pose proof (proj1 (Forall_forall _ _) replace_and_name) as C.
  induction l as [|a l IH]; [done|]. clear Hne.
  inversion Hl as [|?? Ha Hl']; subst.
  destruct l as [|b l].
  - change (String.concat ", " ([a] ++ ["and"; c]))
      with (a ++ ", " ++ "and" ++ ", " ++ c)%string.
    rewrite (A a Ha), (C c Hc). reflexivity.
  - inversion Hl' as [|?? Hb _]; subst.
    rewrite <- app_comm_cons, concat_cons by done.
    rewrite <- app_comm_cons, concat_cons by (by destruct l).
    rewrite (A a Ha), (B b Hb).
    rewrite <- concat_cons by (by destruct l).
    rewrite app_comm_cons, IH by done.
    rewrite (concat_cons _ a) by done.
    rewrite !append_assoc. reflexivity.
Qed.

Lemma insert_before_end_snoc (l : list string) (z s : string) :
  insert_before_end (l ++ [z]) s = l ++ [s; z].
Proof.
  unfold insert_before_end. rewrite length_app. simpl.
  replace (length l + 1 - 1)%nat with (length l) by lia.
  by rewrite take_app_length, drop_app_length.
Qed.

(** X17: the sentence of an order whose toppings are in the topping list:
    one topping is named alone, two are joined by "and", three or more
    are separated by commas with ", and" before the last; an order with
    no topping reads "with and with". *)
Theorem str_sentence (o : Order.t) :
  Forall (λ t, t ∈ Order.topping_list) (Order.toppings o) →
  __str__ o =
  ("A " ++ Order.tea_type o ++ " tea with " ++ listing (Order.toppings o)
   ++ " with " ++ PyStr.str_int (Order.sugar_percentage o)
   ++ " percent sugar and " ++ Order.ice_category o ++ " ice.")%string.
Proof.
  intros Hl. unfold __str__. do 3 f_equal.
  assert (E : topping_list_formatted (Order.toppings o) = listing (Order.toppings o));
    [|by rewrite E].
  destruct (Order.toppings o) as [|a [|b [|c l]]] eqn:El; [done..|].
  rewrite <- El in *. 
  assert (Hne : Order.toppings o ≠ []) by (by rewrite El).
  destruct (exists_last Hne) as (l' & z & E). rewrite E in *.
  unfold topping_list_formatted, listing.
  assert (Hlen : (3 <= length (l' ++ [z]))%nat) by (rewrite El; simpl; lia).
  rewrite length_app in Hlen. simpl in Hlen.
  rewrite !decide_False by (rewrite length_app; simpl; lia).
  rewrite insert_before_end_snoc.
  apply Forall_app in Hl as [Hl' Hz]. inversion Hz; subst.
  rewrite replace_listing; [|by destruct l'|done|done].
  rewrite removelast_last, last_last.
  destruct l' as [|x [|y l'']]; simpl in Hlen; try lia.
  destruct l''; reflexivity.
Qed.

Lemma str_sentence_witness :
  __str__ (Order.mk ["tapioca"; "aloe jelly"; "red bean"; "pudding"] "yogurt" 5 "more") =
  "A yogurt tea with tapioca, aloe jelly, red bean, and pudding with 5 percent sugar and more ice."%string.
Proof.
  rewrite (str_sentence (Order.mk ["tapioca"; "aloe jelly"; "red bean"; "pudding"]
                           "yogurt" 5 "more")).
  - reflexivity.
  - apply Forall_forall. intros t Ht.
    repeat (apply elem_of_cons in Ht as [->|Ht]; [compute_done|]).
    by apply not_elem_of_nil in Ht.
Defined.

(** Outside the topping list the replacement can eat a comma. *)
Example str_foreign_topping :
  topping_list_formatted ["this and"; "that"; "more"] = "this and that, and more"%string.
Proof. reflexivity. Qed.

(** ** The commands *)

Lemma set_confirms (response : string) :
  PyStr.set response ∩ PyStr.set "yY" ≠ ∅ ↔ confirms response.
Proof.
  unfold confirms, PyStr.set.
  change (String.list_ascii_of_string "yY")
    with [Ascii.ascii_of_nat 121; Ascii.ascii_of_nat 89].
  set (cs := String.list_ascii_of_string response). split.
  - intros H. apply set_choose_L in H as [c Hc].
    apply elem_of_intersection in Hc as [Hr Hy].
    apply elem_of_list_to_set in Hr, Hy.
    apply elem_of_cons in Hy as [->|Hy]; [by left|].
    apply list_elem_of_singleton in Hy as ->. by right.
  - intros [H|H] E.
    + assert (Ascii.ascii_of_nat 121 ∈ (∅ : gset Ascii.ascii)) as H0; [|set_solver].
      rewrite <- E. apply elem_of_intersection.
      split; apply elem_of_list_to_set; [done|set_solver].
    + assert (Ascii.ascii_of_nat 89 ∈ (∅ : gset Ascii.ascii)) as H0; [|set_solver].
      rewrite <- E. apply elem_of_intersection.
      split; apply elem_of_list_to_set; [done|set_solver].
Qed.

Lemma clear_orders_cleared (response : string) (w : world) :
  confirms response →
  order_storage (clear_orders response w) = Some [] ∧
  stdout (clear_orders response w) = (stdout w ++ clear_prompt)%string.
Proof.
  intros H. unfold clear_orders.
  rewrite bool_decide_eq_true_2 by (by apply set_confirms). done.
Qed.

(** X18: [clear_orders] empties the history file (creating it if it does
    not exist) exactly when the answer holds a [y] or a [Y] somewhere;
    any other answer, the empty one included, leaves the file as it is
    and prints "Aborted.". *)
Theorem clear_orders_answer (response : string) (w : world) :
  (confirms response →
     clear_orders response w = mkworld (Some []) (stdout w ++ clear_prompt)) ∧
  (¬ confirms response →
     clear_orders response w =
     mkworld (order_storage w) ((stdout w ++ clear_prompt) ++ "Aborted." ++ PyStr.nl)).
Proof.
  unfold clear_orders. split; intros H.
  - rewrite bool_decide_eq_true_2 by (by apply set_confirms). done.
  - rewrite bool_decide_eq_false_2 by (by rewrite set_confirms). done.
Qed.

Example clear_orders_okay :
  order_storage (clear_orders "okay" (mkworld (Some scenario_history) EmptyString))
  = Some [].
Proof. reflexivity. Qed.

Example clear_orders_default :
  order_storage (clear_orders EmptyString (mkworld (Some scenario_history) EmptyString))
  = Some scenario_history.
Proof. reflexivity. Qed.

(** X19: with a command on the command line nothing is generated: [main]
    returns without a random draw, the history file can only change
    under [clear], [help] only prints, and any other command does nothing
    at all. *)
Theorem main_commands (argv : list string) (command : string) (today : Z)
    (response : string) (w : world) (g : Random.rng) :
  argv !! 1%nat = Some command →
  ∃ w', main argv today response w g = Some (w', g) ∧
    (command ≠ "clear"%string → order_storage w' = order_storage w) ∧
    (command = "help"%string → w' = print helpmsg w) ∧
    (command ≠ "clear"%string → command ≠ "help"%string → w' = w).
Proof.
  intros Hc. unfold main.
  assert (Hlen : (1 < length argv)%nat) by (by eapply lookup_lt_Some).
  rewrite decide_False by lia.
  assert (Hget : Py.getitem argv 1 = Some command).
  { unfold Py.getitem. rewrite norm_index_nonneg by lia. exact Hc. }
  rewrite (mbind_run _ _ _ _ _ (lift_run _ _ g Hget)).
  destruct (String.eqb_spec command "clear") as [->|Hnc].
  - eexists. split; [done|]. split; [done|]. split; [discriminate|done].
  - destruct (String.eqb_spec command "help") as [->|Hnh].
    + eexists. split; [done|]. split; [done|]. split; [done|]. done.
    + exists w. split; [done|]. split; [done|]. split; [done|]. done.
Qed.

Lemma main_commands_witness :
  ∃ w', main ["order_generator.py"; "help"; "me"]%string 0 EmptyString
          (mkworld None EmptyString) (constant_rng half 0)
        = Some (w', constant_rng half 0) ∧
    order_storage w' = None ∧ stdout w' = (helpmsg ++ PyStr.nl)%string.
Proof.
  destruct (main_commands ["order_generator.py"; "help"; "me"]%string "help" 0
              EmptyString (mkworld None EmptyString) (constant_rng half 0) eq_refl)
    as (w' & Hrun & Hs & Hh & _).
  exists w'. split; [exact Hrun|]. split.
  - apply Hs. discriminate.
  - rewrite (Hh eq_refl). reflexivity.
Defined.

Lemma mbind_raise {A B} (m : Random.M A) (f : A → Random.M B) (g : Random.rng) :
  m g = None → (m ≫= f) g = None.
Proof. intros H. unfold mbind, M_bind, Random.bind. by rewrite H. Qed.

Lemma new_order_file_run (today : Z) (w : world) (h : list record) (g : Random.rng) :
  order_storage w = Some h → Forall (valid_record today) h →
  ∃ d g', new_order today h g = Some ((decode d, h ++ [mkrecord d today]), g') ∧
    dict_in_range d ∧
    new_order_file today w g =
      Some (mkworld (Some (h ++ [mkrecord d today]))
              (stdout w ++ ("Today's order:" ++ PyStr.nl ++ __str__ (decode d))
                 ++ PyStr.nl), g').
Proof.
  intros Hw Hv. destruct (new_order_run today h g Hv) as (d & g' & Hrun & Hd).
  exists d, g'. split; [done|]. split; [done|].
  unfold new_order_file.
  rewrite (mbind_run _ _ _ _ _ (lift_run _ _ g Hw)).
  rewrite (mbind_run _ _ _ _ _ Hrun). done.
Qed.

(** X20: a run on an existing history file of valid records prints the
    sentence of the order whose dictionary it appends to the file; on a
    missing file, or on one with an invalid record, it raises. *)
Theorem new_order_file_prints (today : Z) (w : world) (g : Random.rng) :
  (∀ h, order_storage w = Some h → Forall (valid_record today) h →
     ∃ o d g', new_order_file today w g =
         Some (mkworld (Some (h ++ [mkrecord d today]))
                 (stdout w ++ ("Today's order:" ++ PyStr.nl ++ __str__ o) ++ PyStr.nl),
               g') ∧
       Order.to_dict o = Some d) ∧
  (order_storage w = None → new_order_file today w g = None) ∧
  (∀ h, order_storage w = Some h → ¬ Forall (valid_record today) h →
     new_order_file today w g = None).
Proof.
  split; [|split].
  - intros h Hw Hv.
    destruct (new_order_file_run today w h g Hw Hv) as (d & g' & _ & Hd & Hrun).
    exists (decode d), d, g'. split; [done|]. by apply decode_in_range.
  - intros Hw. unfold new_order_file. apply mbind_raise. by rewrite Hw.
  - intros h Hw Hv. unfold new_order_file.
    rewrite (mbind_run _ _ _ _ _ (lift_run _ _ g Hw)).
    destruct (new_order today h g) as [r|] eqn:Hr; [|by apply mbind_raise].
    exfalso. apply Hv.
    destruct (novelty_factors today h) as [nf|] eqn:Hnf.
    + by destruct (novelty_factors_lookup _ _ _ Hnf) as (_ & ? & _).
    + destruct h as [|r0 h']; [constructor|].
      unfold new_order in Hr. rewrite decide_False in Hr by done.
      rewrite Hnf in Hr. done.
Qed.

(** X21: a fresh start: whatever the history file holds, and also when it
    does not exist, a confirmed [clear] followed by a plain run succeeds
    and leaves a file with exactly one record, dated today, with indices
    in range. *)
Theorem clear_then_first_order (prog response : string) (today : Z)
    (w : world) (g : Random.rng) :
  confirms response →
  ∃ w1 w2 d,
    main [prog; "clear"%string] today response w g = Some (w1, g) ∧
    main [prog] today EmptyString w1 g = Some (w2, skip (first_count g + 4) g) ∧
    order_storage w2 = Some [mkrecord d today] ∧ dict_in_range d ∧
    Forall (valid_record today) [mkrecord d today].
Proof.
  intros Hy.
  destruct (clear_orders_cleared response w Hy) as [Hs1 Ho1].
  exists (clear_orders response w). eexists _, (first_dict g).
  split; [reflexivity|]. split.
  - unfold main. rewrite decide_True by done. unfold new_order_file.
    rewrite (mbind_run _ _ _ _ _ (lift_run _ _ g Hs1)).
    rewrite (mbind_run _ _ _ _ _ (first_order_run today g)). reflexivity.
  - split; [done|]. split; [apply first_dict_in_range|].
    constructor; [|constructor]. apply new_record_valid, first_dict_in_range.
Qed.

Lemma clear_then_first_order_witness :
  ∃ w1 w2 d,
    main ["order_generator.py"; "clear"]%string 3 "Yes"
      (mkworld None EmptyString) (constant_rng half 1) = Some (w1, constant_rng half 1) ∧
    main ["order_generator.py"]%string 3 EmptyString w1 (constant_rng half 1)
      = Some (w2, skip (first_count (constant_rng half 1) + 4) (constant_rng half 1)) ∧
    order_storage w2 = Some [mkrecord d 3].
Proof.
  assert (Hy : confirms "Yes") by (right; compute_done).
  destruct (clear_then_first_order "order_generator.py" "Yes" 3
              (mkworld None EmptyString) (constant_rng half 1) Hy)
    as (w1 & w2 & d & H1 & H2 & H3 & _).
  exists w1, w2, d. split; [exact H1|]. split; [exact H2 | exact H3].
Defined.

(** ** Fractions outside [0, 1) and the sugar percentage *)

Lemma int_valid_iff (x : R) (n : nat) :
  (0 < n)%nat →
  valid_index n (Py.int x) ↔ - (INR n + 1) < x < INR n.
Proof.
  intros Hpos. unfold valid_index, Py.int. rewrite INR_IZR_INZ.
  destruct (Rle_dec 0 x) as [H0|H0].
  - destruct (base_Int_part x) as [Hl Hu].
    assert (0 <= Int_part x)%Z.
    { apply Z.lt_succ_r, lt_IZR. rewrite succ_IZR. lra. }
    assert (0 <= IZR (Z.of_nat n)) by (apply IZR_le; lia).
    split.
    + intros [_ Hn]. split; [lra|].
      assert (Int_part x + 1 <= Z.of_nat n)%Z as Hle by lia.
      apply IZR_le in Hle. rewrite plus_IZR in Hle. lra.
    + intros [_ Hn]. split; [lia|]. apply lt_IZR. lra.
  - destruct (base_Int_part (- x)) as [Hl Hu].
    assert (0 <= Int_part (- x))%Z.
    { apply Z.lt_succ_r, lt_IZR. rewrite succ_IZR. lra. }
    assert (0 <= IZR (Z.of_nat n)) by (apply IZR_le; lia).
    split.
    + intros [Hn _]. split; [|lra].
      assert (Int_part (- x) <= Z.of_nat n)%Z as Hle by lia.
      apply IZR_le in Hle. lra.
    + intros [Hn _]. split; [|lia].
      assert (Int_part (- x) < Z.of_nat n + 1)%Z; [|lia].
      apply lt_IZR. rewrite plus_IZR. lra.
Qed.

(** X22: [from_uniform=True] returns an order exactly when every fraction
    [x] of a domain of [n] values has [-(n + 1) < x * n < n]: 1.0 and
    above raise, while negative fractions down to [-(n + 1)/n] are taken
    as indices from the end; the sugar fraction is never checked. *)
Theorem init_uniform_returns_iff (tops : list R) (tea sugar ice : R) :
  is_Some (Order.init (Order.FromUniform tops tea sugar ice)) ↔
  Forall (λ u, - 11 < u * 10 < 10) tops ∧ - 9 < tea * 8 < 8 ∧ - 5 < ice * 4 < 4.
Proof.
  unfold Order.init.
  change (IZR (Py.len Order.topping_list)) with 10.
  change (IZR (Py.len Order.tea_types)) with 8.
  change (IZR (Py.len Order.ice_categories)) with 4.
  assert (Ht : is_Some (mapM (λ t, Py.getitem Order.topping_list (Py.int (t * 10))) tops)
               ↔ Forall (λ u, - 11 < u * 10 < 10) tops).
  { rewrite mapM_is_Some. apply Forall_iff. intros u. simpl.
    rewrite getitem_is_Some, int_valid_iff by (simpl; lia). simpl. lra. }
  assert (Ha : is_Some (Py.getitem Order.tea_types (Py.int (tea * 8)))
               ↔ - 9 < tea * 8 < 8).
  { rewrite getitem_is_Some, int_valid_iff by (simpl; lia). simpl. lra. }
  assert (Hi : is_Some (Py.getitem Order.ice_categories (Py.int (ice * 4)))
               ↔ - 5 < ice * 4 < 4).
  { rewrite getitem_is_Some, int_valid_iff by (simpl; lia). simpl. lra. }
  rewrite <- Ht, <- Ha, <- Hi.
  destruct (mapM _ tops) as [ts|]; [|split; [by intros [? ?]|by intros [[? ?] _]]].
  destruct (Py.getitem Order.tea_types _) as [a|];
    [|split; [by intros [? ?]|by intros (_ & [? ?] & _)]].
  destruct (Py.getitem Order.ice_categories _) as [c|];
    [|split; [by intros [? ?]|by intros (_ & _ & [? ?])]].
  split; [eauto|]. intros _. cbn. eauto.
Qed.

Lemma init_uniform_returns_iff_witness :
  is_Some (Order.init (Order.FromUniform [- (1 / 2)] (1 / 2) 7 (- 1))).
Proof.
  apply (init_uniform_returns_iff [- (1 / 2)] (1 / 2) 7 (- 1)).
  split; [|lra]. constructor; [lra|constructor].
Defined.





(** ** Instances of the properties stated without a premise of their own *)

Lemma to_dict_decodes_witness :
  Order.to_dict (Order.mk ["boba"] "classic" 30 "no") = None.
Proof.
  apply (proj1 (to_dict_decodes (Order.mk ["boba"] "classic" 30 "no"))).
  intros (H & _). inversion H as [|?? Hin _]; subst.
  revert Hin. compute_done.
Defined.

Lemma novelty_penalty_window_witness : novelty_penalty (- 1) = None.
Proof.
  apply (proj2 (proj1 (novelty_penalty_window (- 1)))). lra.
Defined.

Lemma clear_orders_answer_witness :
  clear_orders "nope" (mkworld (Some scenario_history) EmptyString) =
  mkworld (Some scenario_history)
    ((EmptyString ++ clear_prompt) ++ "Aborted." ++ PyStr.nl).
Proof.
  apply (proj2 (clear_orders_answer "nope" (mkworld (Some scenario_history) EmptyString))).
  intros [H|H]; revert H; compute_done.
Defined.

Lemma new_order_file_prints_witness :
  new_order_file 0 (mkworld None EmptyString) (constant_rng half 1) = None.
Proof.
  destruct (new_order_file_prints 0 (mkworld None EmptyString) (constant_rng half 1))
    as (_ & H & _).
  exact (H eq_refl).
Defined.
